(** * skip-pob: lane constructor, auction-bid command and builder genesis types

    A shallow embedding of three parts of the repository:

    - [blockbuster/lanes/constructor/lane.go]: the generic lane, its
      validation, its handler setters and its [Match] predicate
      (module [Constructor]);
    - [x/builder/client/cli/tx.go]: the [auction-bid] transaction command
      (module [Cli]), together with the two Go standard library functions
      its behaviour rests on, [strings.Split] and
      [base64.StdEncoding.DecodeString] (modules [Strings] and [Base64]);
    - the protobuf declaration of the builder module's [GenesisState] and
      [Params] messages (module [Proto]).

    Go values that may be [nil] (interfaces, function values) are options.
    A Go call that does not return normally is a [Panic]. *)

From Stdlib Require Import List String Ascii ZArith Lia Bool Arith.
From Stdlib Require Import Permutation.
From Stdlib Require Import DecimalString Decimal DecimalNat DecimalZ.
From Stdlib.Strings Require Import Byte.
From Equations Require Import Equations.
Import ListNotations.

Local Open Scope string_scope.
Local Open Scope list_scope.

(** ** Outcomes of Go calls *)

(** A Go call either returns a value or unwinds with a panic value.  The
    panic values that occur here are errors and run-time error messages,
    both rendered as their message. *)
Inductive result (A : Type) : Type :=
| Ret (a : A)
| Panic (msg : string).

Arguments Ret {A} a.
Arguments Panic {A} msg.

(** The message of the run-time panic raised by calling a nil function value
    or a method of a nil interface. *)
Definition nil_dereference : string :=
  "runtime error: invalid memory address or nil pointer dereference".

Module Constructor.

Set Implicit Arguments.

Section Lane.

(** Types of the SDK and of package [blockbuster] that [lane.go] only
    stores and passes on. *)
Variables Context Tx : Type.
Variables Logger TxEncoder TxDecoder AnteHandler LegacyDec : Type.
Variable Mempool : Type.
Variables PrepareLaneHandler ProcessLaneHandler CheckOrderHandler : Type.

(** [blockbuster.MatchHandler]: [func(ctx sdk.Context, tx sdk.Tx) bool]. *)
Definition MatchHandler : Type := Context -> Tx -> bool.

(** An [error] built by [fmt.Errorf] without verbs is its message. *)
Definition error : Type := string.

(** The [blockbuster.Lane] interface, restricted to the methods [lane.go]
    calls on the members of an ignore list or implements below.  A value
    of the interface is the record of its methods; a [Match] that does not
    return (a nil interface value, a nil handler, unbounded recursion
    through the ignore lists) is a [Panic]. *)
Record Lane : Type := mkLane {
  Lane_Name : string;
  Lane_Match : Context -> Tx -> result bool
}.

(** [blockbuster.BaseLaneConfig], with the fields [lane.go] reads and
    writes. *)
Record BaseLaneConfig : Type := mkBaseLaneConfig {
  cfg_Logger : Logger;
  cfg_TxEncoder : TxEncoder;
  cfg_TxDecoder : TxDecoder;
  cfg_AnteHandler : AnteHandler;
  cfg_MaxBlockSpace : LegacyDec;
  IgnoreList : list Lane
}.

(** [BaseLaneConfig.ValidateBasic] lives in package [blockbuster]; the
    lane only tests its result against [nil]. *)
Variable cfg_ValidateBasic : BaseLaneConfig -> option error.

(** [LaneConstructor[C]].  The embedded [blockbuster.LaneMempool] is an
    interface value and the four handlers are function values: each may
    be nil. *)
Record LaneConstructor : Type := mkLaneConstructor {
  cfg : BaseLaneConfig;
  laneName : string;
  LaneMempool : option Mempool;
  matchHandler : option MatchHandler;
  prepareLaneHandler : option PrepareLaneHandler;
  checkOrderHandler : option CheckOrderHandler;
  processLaneHandler : option ProcessLaneHandler
}.

(** The default handler factories are methods of the lane defined in
    another file of the package; each returns a function literal, which is
    never nil. *)
Variable DefaultPrepareLaneHandler : LaneConstructor -> PrepareLaneHandler.
Variable DefaultProcessLaneHandler : LaneConstructor -> ProcessLaneHandler.
Variable DefaultCheckOrderHandler : LaneConstructor -> CheckOrderHandler.

(** *** Field assignments through the receiver pointer *)

Definition set_prepareLaneHandler (l : LaneConstructor)
    (h : option PrepareLaneHandler) : LaneConstructor :=
  mkLaneConstructor (cfg l) (laneName l) (LaneMempool l) (matchHandler l)
    h (checkOrderHandler l) (processLaneHandler l).

Definition set_processLaneHandler (l : LaneConstructor)
    (h : option ProcessLaneHandler) : LaneConstructor :=
  mkLaneConstructor (cfg l) (laneName l) (LaneMempool l) (matchHandler l)
    (prepareLaneHandler l) (checkOrderHandler l) h.

Definition set_checkOrderHandler (l : LaneConstructor)
    (h : option CheckOrderHandler) : LaneConstructor :=
  mkLaneConstructor (cfg l) (laneName l) (LaneMempool l) (matchHandler l)
    (prepareLaneHandler l) h (processLaneHandler l).

Definition set_cfg (l : LaneConstructor) (c : BaseLaneConfig)
    : LaneConstructor :=
  mkLaneConstructor c (laneName l) (LaneMempool l) (matchHandler l)
    (prepareLaneHandler l) (checkOrderHandler l) (processLaneHandler l).

(** *** ValidateBasic *)

(** The three [if l.xHandler == nil { l.xHandler = l.DefaultX() }]
    statements, in source order.  Each factory is called on the lane as
    the preceding statements left it. *)
Definition default_prepare (l : LaneConstructor) : LaneConstructor :=
  match prepareLaneHandler l with
  | None => set_prepareLaneHandler l (Some (DefaultPrepareLaneHandler l))
  | Some _ => l
  end.

Definition default_process (l : LaneConstructor) : LaneConstructor :=
  match processLaneHandler l with
  | None => set_processLaneHandler l (Some (DefaultProcessLaneHandler l))
  | Some _ => l
  end.

Definition default_checkOrder (l : LaneConstructor) : LaneConstructor :=
  match checkOrderHandler l with
  | None => set_checkOrderHandler l (Some (DefaultCheckOrderHandler l))
  | Some _ => l
  end.

(** [ValidateBasic] has a pointer receiver: it returns the error (nil is
    [None]) together with the lane as the call leaves it. *)
Definition ValidateBasic (l : LaneConstructor)
    : option error * LaneConstructor :=
  match cfg_ValidateBasic (cfg l) with
  | Some err => (Some err, l)
  | None =>
    if String.eqb (laneName l) "" then
      (Some "lane name cannot be empty", l)
    else
      match LaneMempool l with
      | None => (Some "lane mempool cannot be nil", l)
      | Some _ =>
        match matchHandler l with
        | None => (Some "match handler cannot be nil", l)
        | Some _ =>
          (None, default_checkOrder (default_process (default_prepare l)))
        end
      end
  end.

(** What the four checks of [ValidateBasic] reject: an invalid base config,
    an empty name, a nil mempool, a nil match handler. *)
Definition required_missing (c : BaseLaneConfig) (name : string)
    (mp : option Mempool) (mh : option MatchHandler) : Prop :=
  cfg_ValidateBasic c <> None \/ name = "" \/ mp = None \/ mh = None.

(** *** NewLaneConstructor *)

Definition NewLaneConstructor (c : BaseLaneConfig) (name : string)
    (laneMempool : option Mempool) (matchHandlerFn : option MatchHandler)
    : result LaneConstructor :=
  let lane := mkLaneConstructor c name laneMempool matchHandlerFn
                None None None in
  match ValidateBasic lane with
  | (Some err, _) => Panic err
  | (None, lane') => Ret lane'
  end.

(** *** Handler setters *)

Definition SetPrepareLaneHandler (l : LaneConstructor)
    (h : option PrepareLaneHandler) : LaneConstructor :=
  set_prepareLaneHandler l h.

Definition SetProcessLaneHandler (l : LaneConstructor)
    (h : option ProcessLaneHandler) : LaneConstructor :=
  set_processLaneHandler l h.

Definition SetCheckOrderHandler (l : LaneConstructor)
    (h : option CheckOrderHandler) : LaneConstructor :=
  set_checkOrderHandler l h.

(** *** Match and CheckIgnoreList *)

(** The [for _, lane := range ...] loop of [CheckIgnoreList]: the first
    lane that matches ends the loop with [true]; a call that panics
    unwinds the loop. *)
Fixpoint range_IgnoreList (lanes : list Lane) (ctx : Context) (tx : Tx)
    : result bool :=
  match lanes with
  | [] => Ret false
  | lane :: rest =>
    match Lane_Match lane ctx tx with
    | Ret true => Ret true
    | Ret false => range_IgnoreList rest ctx tx
    | Panic msg => Panic msg
    end
  end.

Definition CheckIgnoreList (l : LaneConstructor) (ctx : Context) (tx : Tx)
    : result bool :=
  range_IgnoreList (IgnoreList (cfg l)) ctx tx.

(** [l.matchHandler(ctx, tx) && !l.CheckIgnoreList(ctx, tx)]: [&&] does
    not evaluate its right operand when the left one is false. *)
Definition Match (l : LaneConstructor) (ctx : Context) (tx : Tx)
    : result bool :=
  match matchHandler l with
  | None => Panic nil_dereference
  | Some h =>
    if h ctx tx then
      match CheckIgnoreList l ctx tx with
      | Ret b => Ret (negb b)
      | Panic msg => Panic msg
      end
    else Ret false
  end.

Definition Name (l : LaneConstructor) : string := laneName l.

Definition SetIgnoreList (l : LaneConstructor) (lanes : list Lane)
    : LaneConstructor :=
  set_cfg l (mkBaseLaneConfig (cfg_Logger (cfg l)) (cfg_TxEncoder (cfg l))
               (cfg_TxDecoder (cfg l)) (cfg_AnteHandler (cfg l))
               (cfg_MaxBlockSpace (cfg l)) lanes).

(** [l.cfg.AnteHandler = anteHandler] *)
Definition SetAnteHandler (l : LaneConstructor) (anteHandler : AnteHandler)
    : LaneConstructor :=
  set_cfg l (mkBaseLaneConfig (cfg_Logger (cfg l)) (cfg_TxEncoder (cfg l))
               (cfg_TxDecoder (cfg l)) anteHandler
               (cfg_MaxBlockSpace (cfg l)) (IgnoreList (cfg l))).

(** The getters [Logger()], [TxDecoder()], [TxEncoder()] and
    [GetMaxBlockSpace()] of the config; the first three are named after the
    lane, their own names being those of the types they return. *)
Definition LaneLogger (l : LaneConstructor) : Logger := cfg_Logger (cfg l).

Definition LaneTxDecoder (l : LaneConstructor) : TxDecoder :=
  cfg_TxDecoder (cfg l).

Definition LaneTxEncoder (l : LaneConstructor) : TxEncoder :=
  cfg_TxEncoder (cfg l).

Definition GetMaxBlockSpace (l : LaneConstructor) : LegacyDec :=
  cfg_MaxBlockSpace (cfg l).

(** Whether a lane answers [true] to [Match]. *)
Definition matches (lane : Lane) (ctx : Context) (tx : Tx) : bool :=
  match Lane_Match lane ctx tx with
  | Ret true => true
  | _ => false
  end.

(** A [*LaneConstructor] used as a [blockbuster.Lane], as when it is put
    on another lane's ignore list. *)
Definition as_Lane (l : LaneConstructor) : Lane :=
  mkLane (Name l) (Match l).

End Lane.

End Constructor.

(** ** Package [strings]: [Split] *)

Module Strings.

(** [len(s)] as a Go [int]. *)
Definition len (s : string) : Z := Z.of_nat (String.length s).

(** [strings.IndexByte(s, c)]: the index of the first [c] in [s], or [-1]. *)
Fixpoint IndexByte (s : string) (c : ascii) : Z :=
  match s with
  | "" => -1
  | String a s' =>
    if Ascii.eqb a c then 0
    else let m := IndexByte s' c in if (m <? 0)%Z then -1 else (m + 1)%Z
  end.

(** [strings.Count(s, sep)] for a separator of one byte. *)
Fixpoint CountByte (s : string) (c : ascii) : Z :=
  match s with
  | "" => 0
  | String a s' =>
    if Ascii.eqb a c then (CountByte s' c + 1)%Z else CountByte s' c
  end.

(** The slices [s[:m]] and [s[m:]]. *)
Definition slice_to (s : string) (m : Z) : string :=
  substring 0 (Z.to_nat m) s.

Definition slice_from (s : string) (m : Z) : string :=
  substring (Z.to_nat m) (String.length s - Z.to_nat m) s.

(** The loop of [genSplit], entered with [k = n - i] iterations left:
    [[for i < n { m := Index(s, sep); if m < 0 { break };
        a[i] = s[:m+sepSave]; s = s[m+len(sep):]; i++ }; a[i] = s]]
    with [sepSave = 0] and [len(sep) = 1].  The result is [a[:i+1]]. *)
Fixpoint genSplit_loop (k : nat) (s : string) (sep : ascii) : list string :=
  match k with
  | O => [s]
  | S k' =>
    let m := IndexByte s sep in
    if (m <? 0)%Z then [s]
    else slice_to s m :: genSplit_loop k' (slice_from s (m + 1)) sep
  end.

(** [strings.Split(s, sep)], that is [genSplit(s, sep, 0, -1)], for a
    separator [sep] of one byte: [n] is [Count(s, sep) + 1], capped at
    [len(s) + 1]. *)
Definition Split (s : string) (sep : ascii) : list string :=
  let n := (CountByte s sep + 1)%Z in
  let n := if (len s + 1 <? n)%Z then (len s + 1)%Z else n in
  genSplit_loop (Z.to_nat (n - 1)) s sep.

(** [strings.Join(elems, sep)] for a separator of one byte. *)
Fixpoint Join (elems : list string) (sep : ascii) : string :=
  match elems with
  | [] => ""
  | [s] => s
  | s :: rest => s ++ String sep (Join rest sep)
  end.

End Strings.

(** ** Package [encoding/base64]: [StdEncoding.DecodeString] *)

Module Base64.

(** The alphabet of [StdEncoding] and its padding character. *)
Definition encodeStd : string :=
  "ABCDEFGHIJKLMNOPQRSTUVWXYZabcdefghijklmnopqrstuvwxyz0123456789+/".

Definition StdPadding : ascii := "="%char.

(** [decodeMap]: [0xFF] everywhere except [decodeMap[encoder[i]] = i]. *)
Fixpoint index_from (c : ascii) (encoder : string) (i : Z) : Z :=
  match encoder with
  | "" => 255
  | String a encoder' =>
    if Ascii.eqb a c then i else index_from c encoder' (i + 1)
  end.

Definition decodeMap (c : ascii) : Z := index_from c encodeStd 0.

(** [in == '\n' || in == '\r'] *)
Definition is_newline (c : ascii) : bool :=
  Ascii.eqb c "010"%char || Ascii.eqb c "013"%char.

(** [[for si < len(src) && (src[si] == '\n' || src[si] == '\r') { si++ }]]
    on [rest = src[si:]]. *)
Fixpoint skip_newlines (rest : string) (si : Z) : string * Z :=
  match rest with
  | String c rest' =>
    if is_newline c then skip_newlines rest' (si + 1) else (rest, si)
  | "" => (rest, si)
  end.

(** The bytes no token may hold: those outside the alphabet that are
    neither the padding character nor a newline. *)
Definition illegal_byte (c : ascii) : bool :=
  (decodeMap c =? 255)%Z && negb (is_newline c)
  && negb (Ascii.eqb c StdPadding).

Fixpoint has_illegal_byte (s : string) : bool :=
  match s with
  | "" => false
  | String c s' => illegal_byte c || has_illegal_byte s'
  end.

(** The strings made of bytes of the alphabet only. *)
Fixpoint in_alphabet (s : string) : bool :=
  match s with
  | "" => true
  | String c s' => negb (decodeMap c =? 255)%Z && in_alphabet s'
  end.

(** [CorruptInputError]: the offset of the first illegal input byte. *)
Inductive CorruptInputError : Type :=
| Corrupt (offset : Z).

(** How the [for j] loop of [decodeQuantum] is left: by a [return] with no
    byte decoded, or by falling out of the loop ([break], or [j] reaching
    [len(dbuf)]) with [dlen] sextets in [dbuf].  [rest] is [src[nsi:]]. *)
Inductive quantum_exit : Type :=
| Q_return (rest : string) (nsi : Z) (err : option CorruptInputError)
| Q_break (rest : string) (nsi : Z) (dlen : nat) (dbuf : list Z)
    (err : option CorruptInputError).

(** A step on an input that holds an illegal byte fails, or leaves a rest
    that still holds it. *)
Definition fails_or_keeps (q : quantum_exit) : Prop :=
  match q with
  | Q_return r _ err => err <> None \/ has_illegal_byte r = true
  | Q_break r _ _ _ err => err <> None \/ has_illegal_byte r = true
  end.

(** A step from index [si] of an input of [L] bytes, in a quantum begun at
    [si0]: the index moves forward and stays in step with the rest of the
    input, and an error points between the start of the quantum and the end
    of the input. *)
Definition exit_in_bounds (si0 si L : Z) (q : quantum_exit) : Prop :=
  match q with
  | Q_return r n err | Q_break r n _ _ err =>
    (si <= n)%Z /\ (n + Strings.len r = L)%Z /\
    forall k, err = Some (Corrupt k) -> (si0 <= k <= L)%Z
  end.

(** After the padding of a quantum: newlines are skipped, and anything left
    is trailing garbage. *)
Definition after_padding (rest : string) (si : Z) (j : nat) (dbuf : list Z)
    : quantum_exit :=
  let '(rest1, si1) := skip_newlines rest si in
  match rest1 with
  | "" => Q_break rest1 si1 j dbuf None
  | String _ _ => Q_break rest1 si1 j dbuf (Some (Corrupt si1))
  end.

(** The [for j := 0; j < len(dbuf); j++] loop of [decodeQuantum] for the
    padded, non-strict [StdEncoding], on [rest = src[si:]].  A newline is
    skipped without advancing [j]. *)
Fixpoint quantum_for (rest : string) (si : Z) (j : nat) (dbuf : list Z)
    {struct rest} : quantum_exit :=
  if (4 <=? j)%nat then Q_break rest si 4 dbuf None
  else
    match rest with
    | "" =>
      match j with
      | O => Q_return rest si None
      | _ => Q_return rest si (Some (Corrupt (si - Z.of_nat j)))
      end
    | String c rest' =>
      let si := (si + 1)%Z in
      let out := decodeMap c in
      if negb (out =? 255)%Z then quantum_for rest' si (S j) (dbuf ++ [out])
      else if is_newline c then quantum_for rest' si j dbuf
      else if negb (Ascii.eqb c StdPadding) then
        Q_return rest' si (Some (Corrupt (si - 1)))
      else
        match j with
        | 0%nat | 1%nat => Q_return rest' si (Some (Corrupt (si - 1)))
        | 2%nat =>
          let '(rest1, si1) := skip_newlines rest' si in
          match rest1 with
          | "" => Q_return rest1 si1 (Some (Corrupt si1))
          | String c1 rest2 =>
            if negb (Ascii.eqb c1 StdPadding) then
              Q_return rest1 si1 (Some (Corrupt (si1 - 1)))
            else after_padding rest2 (si1 + 1) j dbuf
          end
        | _ => after_padding rest' si j dbuf
        end
    end.

(** [byte(x)] of an unsigned [x]. *)
Definition to_byte (z : Z) : byte :=
  match Byte.of_N (Z.to_N (Z.land z 255)) with
  | Some b => b
  | None => x00
  end.

(** [decodeQuantum(dst, src, si)]: the new index (with [rest = src[nsi:]]),
    the bytes written to [dst] and the error.  [dlen - 1] bytes are written,
    the high ones first. *)
Definition decodeQuantum (rest : string) (si : Z)
    : string * Z * list byte * option CorruptInputError :=
  match quantum_for rest si 0 [] with
  | Q_return rest' nsi err => (rest', nsi, [], err)
  | Q_break rest' nsi dlen dbuf err =>
    let val :=
      Z.lor (Z.lor (Z.lor (Z.shiftl (nth 0 dbuf 0%Z) 18)
                          (Z.shiftl (nth 1 dbuf 0%Z) 12))
                   (Z.shiftl (nth 2 dbuf 0%Z) 6))
            (nth 3 dbuf 0%Z) in
    let dbuf2 := to_byte (Z.shiftr val 0) in
    let dbuf1 := to_byte (Z.shiftr val 8) in
    let dbuf0 := to_byte (Z.shiftr val 16) in
    (rest', nsi, firstn (dlen - 1) [dbuf0; dbuf1; dbuf2], err)
  end.

Definition exit_rest (q : quantum_exit) : string :=
  match q with
  | Q_return r _ _ => r
  | Q_break r _ _ _ _ => r
  end.

(** Termination of [Decode]: every call of [decodeQuantum] on a non-empty
    rest of the input consumes at least one byte. *)
Lemma skip_newlines_length rest si :
  (String.length (fst (skip_newlines rest si)) <= String.length rest)%nat.
Proof.
  revert si; induction rest as [|c rest IH]; intros si; simpl; [lia|].
  destruct (is_newline c); simpl; [|lia].
  specialize (IH (si + 1)%Z). lia.
Qed.

Lemma after_padding_length rest si j dbuf :
  (String.length (exit_rest (after_padding rest si j dbuf))
   <= String.length rest)%nat.
Proof.
  unfold after_padding. pose proof (skip_newlines_length rest si) as H.
  destruct (skip_newlines rest si) as [r s]; simpl in *.
  destruct r; simpl in *; lia.
Qed.

Lemma quantum_for_length rest : forall si j dbuf,
  (j < 4)%nat -> rest <> "" ->
  (String.length (exit_rest (quantum_for rest si j dbuf))
   < String.length rest)%nat.
Proof.
  induction rest as [|c rest IH]; intros si j dbuf Hj Hne; [congruence|].
  assert (Hstep : forall si j dbuf,
    (String.length (exit_rest (quantum_for rest si j dbuf))
     <= String.length rest)%nat).
  { intros si' j' dbuf'. destruct (le_lt_dec 4 j') as [H4|H4].
    - destruct rest; cbn [quantum_for]; destruct (Nat.leb_spec 4 j');
        cbn [exit_rest]; lia.
    - destruct rest as [|c' r'].
      + cbn [quantum_for]. destruct (Nat.leb_spec 4 j'); [lia|].
        destruct j'; cbn [exit_rest]; lia.
      + specialize (IH si' j' dbuf' H4 ltac:(discriminate)). lia. }
  cbn [quantum_for]. destruct (Nat.leb_spec 4 j); [lia|].
  destruct (negb (decodeMap c =? 255)%Z).
  { specialize (Hstep (si + 1)%Z (S j) (dbuf ++ [decodeMap c])). simpl; lia. }
  destruct (is_newline c).
  { specialize (Hstep (si + 1)%Z j dbuf). simpl; lia. }
  destruct (negb (Ascii.eqb c StdPadding)); [simpl; lia|].
  destruct j as [|[|[|j]]]; try (simpl; lia).
  - pose proof (skip_newlines_length rest (si + 1)%Z) as H1.
    destruct (skip_newlines rest (si + 1)%Z) as [r1 s1]; simpl in H1.
    destruct r1 as [|c1 r2]; [simpl in *; lia|].
    destruct (negb (Ascii.eqb c1 StdPadding)); [simpl in *; lia|].
    pose proof (after_padding_length r2 (s1 + 1)%Z 2 dbuf). simpl in *; lia.
  - pose proof (after_padding_length rest (si + 1)%Z (S (S (S j))) dbuf).
    simpl; lia.
Qed.

Lemma decodeQuantum_length rest si :
  rest <> "" ->
  (String.length (fst (fst (fst (decodeQuantum rest si))))
   < String.length rest)%nat.
Proof.
  intros Hne. unfold decodeQuantum.
  pose proof (quantum_for_length rest si 0 [] ltac:(lia) Hne) as H.
  destruct (quantum_for rest si 0 []); simpl in *; exact H.
Qed.

Definition inspect {A : Type} (a : A) : {b : A | a = b} :=
  exist _ a eq_refl.

(** The loop [for si < len(src)] of [Encoding.Decode], on [rest = src[si:]],
    with [dst] the bytes decoded so far ([dst[:n]]).  The two loops that
    precede it in the source decode eight and four bytes at a time when all
    of them are in the alphabet and fall back to [decodeQuantum] otherwise;
    on such bytes [decodeQuantum] writes the same three bytes per four
    input bytes, so that the three loops together are this one. *)
Equations? Decode_loop (rest : string) (si : Z) (dst : list byte)
    : list byte * option CorruptInputError by wf (String.length rest) lt :=
  Decode_loop "" si dst := (dst, None);
  Decode_loop (String c rest') si dst
      with inspect (decodeQuantum (String c rest') si) => {
    | exist _ (rest1, nsi, out, Some err) _ := (dst ++ out, Some err);
    | exist _ (rest1, nsi, out, None) Heq :=
        Decode_loop rest1 nsi (dst ++ out) }.
Proof.
  pose proof (decodeQuantum_length (String c rest') si
                ltac:(discriminate)) as H.
  rewrite Heq in H. exact H.
Qed.

(** [StdEncoding.DecodeString(s)]: the decoded bytes [dbuf[:n]] and the
    error. *)
Definition DecodeString (s : string) : list byte * option CorruptInputError :=
  Decode_loop s 0 [].

(** The bytes a token decodes to, and whether it decodes: the error is
    nil. *)
Definition decoded (token : string) : list byte :=
  fst (DecodeString token).

Definition valid (token : string) : Prop :=
  snd (DecodeString token) = None.

End Base64.

(** ** The [auction-bid] command *)

Module Cli.

Set Implicit Arguments.

(** [%d] of a Go [int]. *)
Definition Itoa (z : Z) : string := NilEmpty.string_of_int (Z.to_int z).

(** Whether a string holds a colon, the character that ends the index in
    the message of a decoding error. *)
Definition is_colon (c : ascii) : bool := Ascii.eqb c ":"%char.

Fixpoint has_colon (s : string) : bool :=
  match s with
  | "" => false
  | String c s' => is_colon c || has_colon s'
  end.

(** [l[i] = x] on a slice, for [i] in range. *)
Fixpoint set_index {A : Type} (l : list A) (i : nat) (x : A) : list A :=
  match l, i with
  | [], _ => []
  | _ :: l', O => x :: l'
  | a :: l', S i' => a :: set_index l' i' x
  end.

(** The flag names of [github.com/cosmos/cosmos-sdk/client/flags]. *)
Definition FlagFrom : string := "from".
Definition FlagTimeoutHeight : string := "timeout-height".

Section AuctionBid.

(** Types of the libraries the command is built on: the state of the
    command's [*pflag.FlagSet], [client.Context], [sdk.AccAddress],
    [sdk.Coin], and the errors the library calls return. *)
Variables FlagSet ClientCtx AccAddress Coin lib_error : Type.

(** Errors, by the way they are built: returned as they are from a library
    call, [errors.New], [fmt.Errorf] with a [%w] verb ([msg] is the formatted
    message, [err] the wrapped error), and the decoder's error. *)
Inductive error : Type :=
| lib_err (e : lib_error)
| errorString (s : string)
| wrapError (msg : string) (err : error)
| corruptInput (e : Base64.CorruptInputError).

Variable lib_Error : lib_error -> string.

(** The [Error()] method. *)
Definition Error (e : error) : string :=
  match e with
  | lib_err e => lib_Error e
  | errorString s => s
  | wrapError msg _ => msg
  | corruptInput (Base64.Corrupt n) =>
    "illegal base64 data at input byte " ++ Itoa n
  end.

(** The [Unwrap()] method. *)
Definition Unwrap (e : error) : option error :=
  match e with
  | wrapError _ err => Some err
  | _ => None
  end.

(** Modelled from the spec: the bid message type of [x/builder/types] and
    its constructor [NewMsgAuctionBid], which are not among the sources at
    hand.  The spec gives [MsgAuctionBid] as
    [{bidder: AccountId, bid: Coin, transactions: ordered sequence of opaque
    tx bytes}]. *)
Record MsgAuctionBid : Type := mkMsgAuctionBid {
  Bidder : AccAddress;
  Bid : Coin;
  Transactions : list (list byte)
}.

Definition NewMsgAuctionBid (bidder : AccAddress) (bid : Coin)
    (transactions : list (list byte)) : MsgAuctionBid :=
  mkMsgAuctionBid bidder bid transactions.

(** The library calls of [RunE].  Each returns Go's pair of a value and an
    error ([None] is nil); [Set] also returns the flag set as it leaves it. *)
Variable flags_Set : FlagSet -> string -> string -> FlagSet * option lib_error.
Variable flags_GetUint64 : FlagSet -> string -> Z * option lib_error.
Variable GetClientTxContext : FlagSet -> ClientCtx * option lib_error.
Variable GetFromAddress : ClientCtx -> AccAddress.
Variable ParseCoinNormalized : string -> Coin * option lib_error.
Variable GenerateOrBroadcastTxCLI :
  ClientCtx -> FlagSet -> MsgAuctionBid -> option lib_error.

(** What a run of the command can change: the flag set of the command, and
    the messages handed to [tx.GenerateOrBroadcastTxCLI], in order. *)
Record World : Type := mkWorld {
  flags : FlagSet;
  broadcasts : list (ClientCtx * FlagSet * MsgAuctionBid)
}.

(** A statement of the function body either goes on to the next statement
    with a value, returns from the function, or panics. *)
Inductive step (A : Type) : Type :=
| Next (a : A)
| Return (err : option error)
| Panicked (msg : string).

Arguments Next {A} a.
Arguments Return {A} err.
Arguments Panicked {A} msg.

Definition M (A : Type) : Type := World -> World * step A.

Definition ret {A : Type} (a : A) : M A := fun w => (w, Next a).

Definition bind {A B : Type} (m : M A) (k : A -> M B) : M B :=
  fun w =>
    match m w with
    | (w', Next a) => k a w'
    | (w', Return err) => (w', Return err)
    | (w', Panicked msg) => (w', Panicked msg)
    end.

Notation "x <- m ;; k" := (bind m (fun x => k))
  (at level 61, m at next level, right associativity).
Notation "m ;;; k" := (bind m (fun _ => k))
  (at level 61, right associativity).

(** [return err] *)
Definition return_ {A : Type} (err : option error) : M A :=
  fun w => (w, Return err).

(** [if err != nil { return err }] *)
Definition return_if_err (err : option lib_error) : M unit :=
  match err with
  | Some e => return_ (Some (lib_err e))
  | None => ret tt
  end.

(** [args[i]], with the run-time panic of an index out of range. *)
Definition index (args : list string) (i : nat) : M string :=
  fun w =>
    match nth_error args i with
    | Some a => (w, Next a)
    | None =>
      (w, Panicked ("runtime error: index out of range ["
                      ++ Itoa (Z.of_nat i) ++ "] with length "
                      ++ Itoa (Z.of_nat (List.length args))))
    end.

(** [cmd.Flags().Set(name, value)] *)
Definition Flags_Set (name value : string) : M (option lib_error) :=
  fun w =>
    let '(fs, err) := flags_Set (flags w) name value in
    (mkWorld fs (broadcasts w), Next err).

(** [cmd.Flags()], read. *)
Definition Flags : M FlagSet := fun w => (w, Next (flags w)).

(** [tx.GenerateOrBroadcastTxCLI(clientCtx, cmd.Flags(), msg)] *)
Definition generateOrBroadcast (clientCtx : ClientCtx) (msg : MsgAuctionBid)
    : M (option lib_error) :=
  fun w =>
    (mkWorld (flags w) (broadcasts w ++ [(clientCtx, flags w, msg)]),
     Next (GenerateOrBroadcastTxCLI clientCtx (flags w) msg)).

(** [fmt.Errorf("failed to base64 decode bundled transaction %d: %w", i, err)] *)
Definition decode_error (i : nat) (err : error) : error :=
  wrapError ("failed to base64 decode bundled transaction "
               ++ Itoa (Z.of_nat i) ++ ": " ++ Error err) err.

(** The loop [for i, token := range tokens] over the tokens from index [i]
    on, with [bundledTxs] as the iterations before left it. *)
Fixpoint decode_tokens (tokens : list string) (i : nat)
    (bundledTxs : list (list byte)) : M (list (list byte)) :=
  match tokens with
  | [] => ret bundledTxs
  | token :: tokens' =>
    let '(rawTx, err) := Base64.DecodeString token in
    match err with
    | Some e => return_ (Some (decode_error i (corruptInput e)))
    | None => decode_tokens tokens' (S i) (set_index bundledTxs i rawTx)
    end
  end.

(** The [RunE] function of the command.  The value of the last statement is
    the error the function returns. *)
Definition RunE (args : list string) : M (option error) :=
  arg0 <- index args 0 ;;
  err <- Flags_Set FlagFrom arg0 ;;
  return_if_err err ;;;
  fs <- Flags ;;
  let '(clientCtx, err) := GetClientTxContext fs in
  return_if_err err ;;;
  arg1 <- index args 1 ;;
  let '(bid, err) := ParseCoinNormalized arg1 in
  return_if_err err ;;;
  fs <- Flags ;;
  let '(timeoutHeight, _) := flags_GetUint64 fs FlagTimeoutHeight in
  if (timeoutHeight =? 0)%Z then
    return_ (Some (errorString "timeout height must be greater than 0"))
  else
    arg2 <- index args 2 ;;
    let tokens := Strings.Split arg2 ","%char in
    let bundledTxs := repeat [] (List.length tokens) in
    bundledTxs <- decode_tokens tokens 0 bundledTxs ;;
    let msg := NewMsgAuctionBid (GetFromAddress clientCtx) bid bundledTxs in
    err <- generateOrBroadcast clientCtx msg ;;
    ret (option_map lib_err err).

(** [cobra.ExactArgs(n)] *)
Definition ExactArgs (n : nat) (args : list string) : option error :=
  if Nat.eqb (List.length args) n then None
  else Some (errorString ("accepts " ++ Itoa (Z.of_nat n)
                            ++ " arg(s), received "
                            ++ Itoa (Z.of_nat (List.length args)))).

(** The fields of [cobra.Command] the source sets. *)
Record Command : Type := mkCommand {
  Use : string;
  Short : string;
  Long : string;
  Args : list string -> option error;
  Example : string;
  Command_RunE : list string -> M (option error)
}.

Definition NewAuctionBidTx : Command :=
  mkCommand
    "auction-bid [bidder] [bid] [bundled_tx1_base64,bundled_tx2_base64,...,bundled_txN_base64]"
    "Create an auction bid transaction with signed bundled transactions"
    (String.concat (String "010"%char "")
       ["Create an auction bid transaction with a list of signed bundled transactions,";
        "where each transaction is a base64-encoded string of a signed transaction.";
        ""])
    (ExactArgs 3)
    "auction-bid cosmos1... 10000uatom eyJhZGRyZXNzIjo...==,eyJ2YWx1ZSI6...=="
    RunE.

(** How cobra runs a command on its positional arguments: the [Args]
    validator first, and [RunE] only when it returns nil.  The result is the
    error the invocation ends with. *)
Definition execute (cmd : Command) (args : list string) (w : World)
    : World * result (option error) :=
  match Args cmd args with
  | Some err => (w, Ret (Some err))
  | None =>
    match Command_RunE cmd args w with
    | (w', Next err) => (w', Ret err)
    | (w', Return err) => (w', Ret err)
    | (w', Panicked msg) => (w', Panic msg)
    end
  end.

(** Modelled from the spec: the exit code of the process, which the [main]
    function of the program, not among the sources at hand, derives from
    what the invocation ends with.  The spec has "Exit code 0 on broadcast
    success, non-zero on local validation failure". *)
Definition exits_with_zero (r : result (option error)) : bool :=
  match r with
  | Ret None => true
  | _ => false
  end.

End AuctionBid.

Arguments lib_err {lib_error} e.
Arguments errorString {lib_error} s.
Arguments wrapError {lib_error} msg err.
Arguments corruptInput {lib_error} e.
Arguments Next {lib_error A} a.
Arguments Return {lib_error A} err.
Arguments Panicked {lib_error A} msg.

End Cli.

(** ** The protobuf declaration of the builder module's genesis *)

Module Proto.

(** The part of the proto3 language the file uses. *)
Inductive field_type : Type :=
| t_uint32
| t_string
| t_bool
| t_message (name : string).

Inductive field_option : Type :=
| gogoproto_nullable (b : bool)
| gogoproto_customtype (go_type : string)
| amino_dont_omitempty (b : bool).

Inductive message_option : Type :=
| amino_name (name : string).

Record field : Type := mkField {
  f_type : field_type;
  f_name : string;
  f_number : Z;
  f_options : list field_option
}.

Record message : Type := mkMessage {
  m_name : string;
  m_options : list message_option;
  m_fields : list field
}.

Definition package : string := "skipmev.pob.builder.v1".

(** [message GenesisState] *)
Definition GenesisState : message :=
  mkMessage "GenesisState" []
    [ mkField (t_message "Params") "params" 1 [gogoproto_nullable false] ].

(** [message Params] *)
Definition Params : message :=
  mkMessage "Params" [amino_name "cosmos-sdk/x/builder/Params"]
    [ mkField t_uint32 "max_bundle_size" 1 [];
      mkField t_string "escrow_account_address" 2 [];
      mkField (t_message "cosmos.base.v1beta1.Coin") "reserve_fee" 3
        [gogoproto_nullable false; amino_dont_omitempty true];
      mkField (t_message "cosmos.base.v1beta1.Coin") "min_buy_in_fee" 4
        [gogoproto_nullable false; amino_dont_omitempty true];
      mkField (t_message "cosmos.base.v1beta1.Coin") "min_bid_increment" 5
        [gogoproto_nullable false; amino_dont_omitempty true];
      mkField t_bool "front_running_protection" 6 [];
      mkField t_string "proposer_fee" 7
        [gogoproto_nullable false;
         gogoproto_customtype "github.com/cosmos/cosmos-sdk/types.Dec"] ].

(** The messages the file declares, in order. *)
Definition messages : list message := [GenesisState; Params].

(** The message of the file a type name stands for. *)
Definition lookup_message (name : string) : option message :=
  find (fun m => String.eqb (m_name m) name) messages.

(** The [(gogoproto.customtype)] of a field, when it has one. *)
Fixpoint customtype (opts : list field_option) : option string :=
  match opts with
  | [] => None
  | gogoproto_customtype t :: _ => Some t
  | _ :: opts' => customtype opts'
  end.

(** The kind of value a field holds: the custom type when one is given
    (the SDK's [Dec] is its fixed-point decimal), else the declared type. *)
Inductive value_kind : Type :=
| k_u32
| k_string
| k_bool
| k_Coin
| k_Decimal
| k_message (name : string)
| k_custom (go_type : string).

Definition value_kind_of (f : field) : value_kind :=
  match customtype (f_options f) with
  | Some t =>
    if String.eqb t "github.com/cosmos/cosmos-sdk/types.Dec" then k_Decimal
    else k_custom t
  | None =>
    match f_type f with
    | t_uint32 => k_u32
    | t_string => k_string
    | t_bool => k_bool
    | t_message name =>
      if String.eqb name "cosmos.base.v1beta1.Coin" then k_Coin
      else k_message name
    end
  end.

Definition signature (m : message) : list (string * value_kind) :=
  map (fun f => (f_name f, value_kind_of f)) (m_fields m).

End Proto.

(** ** Concrete instances

    A small instance of each embedding, on which the statements below are
    evaluated. *)

Module Sample.

(** Lanes over transactions that are plain labels; the types the lane only
    stores are [unit], handlers are named. *)
Definition LaneC : Type :=
  Constructor.LaneConstructor unit string unit unit unit unit unit unit
    string string string.

Definition Config : Type :=
  Constructor.BaseLaneConfig unit string unit unit unit unit unit.

Definition config (ignore : list (Constructor.Lane unit string)) : Config :=
  Constructor.mkBaseLaneConfig tt tt tt tt tt ignore.

(** A validation of the base config that wants at most two ignored lanes. *)
Definition cfg_ValidateBasic (c : Config) : option Constructor.error :=
  if (List.length (Constructor.IgnoreList c) <=? 2)%nat then None
  else Some "too many ignored lanes".

Definition DefaultPrepare (l : LaneC) : string :=
  "prepare:" ++ Constructor.laneName l.
Definition DefaultProcess (l : LaneC) : string :=
  "process:" ++ Constructor.laneName l.
Definition DefaultCheckOrder (l : LaneC) : string :=
  "check-order:" ++ Constructor.laneName l.

Definition is_bid (_ : unit) (tx : string) : bool := String.eqb tx "bid".
Definition is_free (_ : unit) (tx : string) : bool :=
  String.eqb tx "free" || String.eqb tx "bid".
Definition any_tx (_ : unit) (_ : string) : bool := true.

Definition lane (name : string) (h : unit -> string -> bool)
    (ignore : list (Constructor.Lane unit string)) : LaneC :=
  Constructor.mkLaneConstructor (config ignore) name (Some tt) (Some h)
    None None None.

Definition tob : LaneC := lane "top-of-block" is_bid [].
Definition free : LaneC := lane "free" is_free [Constructor.as_Lane tob].
Definition default : LaneC :=
  lane "default" any_tx [Constructor.as_Lane tob; Constructor.as_Lane free].

(** The top-of-block lane as [NewLaneConstructor] builds it. *)
Definition new_tob : result LaneC :=
  Constructor.NewLaneConstructor cfg_ValidateBasic DefaultPrepare
    DefaultProcess DefaultCheckOrder (config []) "top-of-block" (Some tt)
    (Some is_bid).

Definition built_tob : LaneC :=
  Constructor.mkLaneConstructor (config []) "top-of-block" (Some tt)
    (Some is_bid) (Some "prepare:top-of-block")
    (Some "check-order:top-of-block") (Some "process:top-of-block").

(** A lane whose match handler is nil. *)
Definition broken : LaneC :=
  Constructor.mkLaneConstructor (config []) "broken" (Some tt) None
    None None None.

(** A command line environment: the flag set is the list of the flags set,
    latest first; the client context is the from address. *)
Definition FlagSet : Type := list (string * string).

Fixpoint lookup (fs : FlagSet) (name : string) : option string :=
  match fs with
  | [] => None
  | (n, v) :: fs' => if String.eqb n name then Some v else lookup fs' name
  end.

Definition flags_Set (fs : FlagSet) (name value : string)
    : FlagSet * option string :=
  ((name, value) :: fs, None).

Definition flags_GetUint64 (fs : FlagSet) (name : string)
    : Z * option string :=
  match lookup fs name with
  | None => (0%Z, Some "flag accessed but not defined")
  | Some v =>
    match NilEmpty.uint_of_string v with
    | Some u => (Z.of_nat (Nat.of_uint u), None)
    | None => (0%Z, Some "invalid syntax")
    end
  end.

Definition GetClientTxContext (fs : FlagSet) : string * option string :=
  match lookup fs Cli.FlagFrom with
  | Some a => (a, None)
  | None => ("", Some "no from address")
  end.

Definition ParseCoinNormalized (s : string) : string * option string :=
  if String.eqb s "" then ("", Some "invalid coin expression") else (s, None).

Definition GenerateOrBroadcastTxCLI (_ : string) (_ : FlagSet)
    (_ : Cli.MsgAuctionBid string string) : option string := None.

Definition World : Type := Cli.World FlagSet string string string.

Definition world (fs : FlagSet) : World := Cli.mkWorld fs [].

Definition run (args : list string) (w : World)
    : World * result (option (Cli.error string)) :=
  Cli.execute
    (Cli.NewAuctionBidTx (fun e : string => e) flags_Set flags_GetUint64
       GetClientTxContext (fun a : string => a) ParseCoinNormalized
       GenerateOrBroadcastTxCLI)
    args w.

(** [RunE] called without the argument check. *)
Definition sample_RunE (args : list string) (w : World)
    : World * Cli.step string (option (Cli.error string)) :=
  Cli.RunE (fun e : string => e) flags_Set flags_GetUint64
    GetClientTxContext (fun a : string => a) ParseCoinNormalized
    GenerateOrBroadcastTxCLI args w.

End Sample.

(** * Properties *)

(** ** The lane constructor *)

Section LaneProperties.

Import Constructor.

Variables Context Tx : Type.
Variables Logger TxEncoder TxDecoder AnteHandler LegacyDec : Type.
Variable Mempool : Type.
Variables PrepareLaneHandler ProcessLaneHandler CheckOrderHandler : Type.

Local Abbreviation Config :=
  (BaseLaneConfig Context Tx Logger TxEncoder TxDecoder AnteHandler LegacyDec).
Local Abbreviation LaneC :=
  (LaneConstructor Context Tx Logger TxEncoder TxDecoder AnteHandler
     LegacyDec Mempool PrepareLaneHandler ProcessLaneHandler
     CheckOrderHandler).

Variable cfg_ValidateBasic : Config -> option error.
Variable DefaultPrepareLaneHandler : LaneC -> PrepareLaneHandler.
Variable DefaultProcessLaneHandler : LaneC -> ProcessLaneHandler.
Variable DefaultCheckOrderHandler : LaneC -> CheckOrderHandler.

Local Abbreviation default_prepare :=
  (Constructor.default_prepare DefaultPrepareLaneHandler).
Local Abbreviation default_process :=
  (Constructor.default_process DefaultProcessLaneHandler).
Local Abbreviation default_checkOrder :=
  (Constructor.default_checkOrder DefaultCheckOrderHandler).
Local Abbreviation ValidateBasic :=
  (Constructor.ValidateBasic cfg_ValidateBasic DefaultPrepareLaneHandler
     DefaultProcessLaneHandler DefaultCheckOrderHandler).
Local Abbreviation NewLaneConstructor :=
  (Constructor.NewLaneConstructor (Mempool := Mempool) cfg_ValidateBasic
     DefaultPrepareLaneHandler DefaultProcessLaneHandler
     DefaultCheckOrderHandler).
Local Abbreviation required_missing :=
  (Constructor.required_missing (Mempool := Mempool) cfg_ValidateBasic).

Implicit Types (l : LaneC) (ctx : Context) (tx : Tx).
Implicit Types (lane : Lane Context Tx) (lanes : list (Lane Context Tx)).

(** *** The loop over the ignore list *)

(** The loop returns [false] exactly when every lane of the list was asked
    and answered [false]. *)
Lemma range_IgnoreList_false lanes ctx tx :
  range_IgnoreList lanes ctx tx = Ret false <->
  Forall (fun lane => Lane_Match lane ctx tx = Ret false) lanes.
Proof.
  induction lanes as [|lane lanes IH]; simpl.
  - split; [constructor | reflexivity].
  - destruct (Lane_Match lane ctx tx) as [[|]|msg] eqn:E.
    + split; [discriminate|]. intros H; inversion H; congruence.
    + rewrite IH. split; [now constructor|]. intros H; now inversion H.
    + split; [discriminate|]. intros H; inversion H; congruence.
Qed.

(** The loop returns [true] exactly when some lane answers [true] and every
    lane before it answered [false]. *)
Lemma range_IgnoreList_true lanes ctx tx :
  range_IgnoreList lanes ctx tx = Ret true <->
  exists pre lane post,
    lanes = pre ++ lane :: post /\
    Forall (fun lane' => Lane_Match lane' ctx tx = Ret false) pre /\
    Lane_Match lane ctx tx = Ret true.
Proof.
  induction lanes as [|lane0 lanes IH]; simpl.
  - split; [discriminate|]. intros (pre & lane & post & E & _).
    destruct pre; discriminate.
  - destruct (Lane_Match lane0 ctx tx) as [[|]|msg] eqn:E0.
    + split; [|reflexivity]. intros _. exists [], lane0, lanes.
      repeat split; auto.
    + rewrite IH. split.
      * intros (pre & lane & post & -> & Hpre & Hm).
        exists (lane0 :: pre), lane, post. repeat split; auto.
      * intros (pre & lane & post & E & Hpre & Hm).
        destruct pre as [|p pre]; simpl in E; inversion E; subst.
        -- congruence.
        -- exists pre, lane, post. inversion Hpre; auto.
    + split; [discriminate|].
      intros (pre & lane & post & E & Hpre & Hm).
      destruct pre as [|p pre]; simpl in E; inversion E; subst.
      * congruence.
      * inversion Hpre; congruence.
Qed.

(** When every lane of the list returns, the loop returns, and its result
    is the disjunction of the answers. *)
Lemma range_IgnoreList_returns lanes ctx tx :
  Forall (fun lane => exists b, Lane_Match lane ctx tx = Ret b) lanes ->
  (exists b, range_IgnoreList lanes ctx tx = Ret b) /\
  (range_IgnoreList lanes ctx tx = Ret true <->
   Exists (fun lane => Lane_Match lane ctx tx = Ret true) lanes).
Proof.
  induction 1 as [|lane lanes [b Hb] Hall [IHr IHt]]; simpl.
  - split; [now exists false|]. split; [discriminate|]. intros H; inversion H.
  - rewrite Hb. destruct b.
    + split; [now exists true|]. split; [|reflexivity].
      intros _. now constructor.
    + split; [exact IHr|]. rewrite IHt. split.
      * intros H. now constructor 2.
      * intros H. inversion H; subst; [congruence | assumption].
Qed.

(** [ValidateBasic] changes nothing but the three optional handlers. *)
Lemma defaults_frame l :
  let l' := default_checkOrder (default_process (default_prepare l)) in
  cfg l' = cfg l /\ laneName l' = laneName l /\
  LaneMempool l' = LaneMempool l /\ matchHandler l' = matchHandler l.
Proof.
  unfold Constructor.default_checkOrder, Constructor.default_process,
    Constructor.default_prepare.
  destruct l as [c n m mh [p|] [co|] [pr|]]; simpl; auto.
Qed.

Lemma defaults_handlers l :
  let l1 := default_prepare l in
  let l2 := default_process l1 in
  let l' := default_checkOrder l2 in
  prepareLaneHandler l' =
    Some (match prepareLaneHandler l with
          | Some h => h
          | None => DefaultPrepareLaneHandler l
          end) /\
  processLaneHandler l' =
    Some (match processLaneHandler l with
          | Some h => h
          | None => DefaultProcessLaneHandler l1
          end) /\
  checkOrderHandler l' =
    Some (match checkOrderHandler l with
          | Some h => h
          | None => DefaultCheckOrderHandler l2
          end).
Proof.
  unfold Constructor.default_checkOrder, Constructor.default_process,
    Constructor.default_prepare.
  destruct l as [c n m mh [p|] [co|] [pr|]]; simpl; auto.
Qed.

Lemma ValidateBasic_error l :
  required_missing (cfg l) (laneName l) (LaneMempool l) (matchHandler l) ->
  exists err, ValidateBasic l = (Some err, l).
Proof.
  unfold Constructor.required_missing, Constructor.ValidateBasic.
  intros H.
  destruct (cfg_ValidateBasic (cfg l)) as [e|]; [eauto|].
  destruct (String.eqb_spec (laneName l) ""); [eauto|].
  destruct (LaneMempool l); [|eauto].
  destruct (matchHandler l); [|eauto].
  exfalso. intuition congruence.
Qed.

Lemma ValidateBasic_ok l :
  ~ required_missing (cfg l) (laneName l) (LaneMempool l) (matchHandler l) ->
  ValidateBasic l =
    (None, default_checkOrder (default_process (default_prepare l))).
Proof.
  unfold Constructor.required_missing, Constructor.ValidateBasic.
  intros H.
  destruct (cfg_ValidateBasic (cfg l)) as [e|];
    [exfalso; apply H; left; discriminate|].
  destruct (String.eqb_spec (laneName l) ""); [exfalso; auto|].
  destruct (LaneMempool l); [|exfalso; auto].
  destruct (matchHandler l); [|exfalso; auto 6].
  reflexivity.
Qed.

Lemma required_missing_dec c name mp mh :
  required_missing c name mp mh \/ ~ required_missing c name mp mh.
Proof.
  unfold Constructor.required_missing.
  destruct (cfg_ValidateBasic c); [left; left; discriminate|].
  destruct (String.eqb_spec name ""); [left; auto|].
  destruct mp; [|left; auto].
  destruct mh; [|left; auto].
  right. intuition congruence.
Qed.

(** [Match] returns when the match handler is not nil and every lane of
    the ignore list returns. *)
Lemma Match_returns l ctx tx :
  matchHandler l <> None ->
  Forall (fun lane => exists b, Lane_Match lane ctx tx = Ret b)
    (IgnoreList (cfg l)) ->
  exists b, Match l ctx tx = Ret b.
Proof.
  intros Hh Hall. unfold Match.
  destruct (matchHandler l) as [h|]; [|congruence].
  destruct (h ctx tx); [|now exists false].
  destruct (proj1 (range_IgnoreList_returns _ ctx tx Hall)) as [b E].
  unfold CheckIgnoreList. rewrite E. now exists (negb b).
Qed.

(** C1. For every context and transaction, [Match] returns [true] if and
    only if the lane's match handler returns [true] and the transaction is
    not on the ignore list, [CheckIgnoreList] returning [false]; and it is
    not on the ignore list exactly when every lane of the list answers
    [false] to [Match]. *)
Theorem Match_true_iff l ctx tx :
  (Match l ctx tx = Ret true <->
   (exists h, matchHandler l = Some h /\ h ctx tx = true) /\
   CheckIgnoreList l ctx tx = Ret false) /\
  (CheckIgnoreList l ctx tx = Ret false <->
   Forall (fun lane => Lane_Match lane ctx tx = Ret false)
     (IgnoreList (cfg l))).
Proof.
  split; [|apply range_IgnoreList_false].
  unfold Match. destruct (matchHandler l) as [h|].
  - destruct (h ctx tx) eqn:Eh.
    + destruct (CheckIgnoreList l ctx tx) as [[|]|msg]; simpl.
      * split; [discriminate | intros [_ H]; discriminate].
      * split; [|reflexivity]. intros _. split; [|reflexivity].
        exists h. auto.
      * split; [discriminate | intros [_ H]; discriminate].
    + split; [discriminate|]. intros [(h' & E & Hh') _].
      inversion E; subst. congruence.
  - split; [discriminate|]. intros [(h & E & _) _]. discriminate.
Qed.

(** C2. [NewLaneConstructor] panics whenever a required field is missing
    (the base config is invalid, the name is empty, the mempool is nil or
    the match handler is nil), and returns a lane otherwise. *)
Theorem NewLaneConstructor_panics_iff (c : Config) (name : string)
    (mp : option Mempool) (mh : option (MatchHandler Context Tx)) :
  ((exists err, NewLaneConstructor c name mp mh = Panic err) <->
   (cfg_ValidateBasic c <> None \/ name = "" \/ mp = None \/ mh = None)) /\
  ((exists l', NewLaneConstructor c name mp mh = Ret l') <->
   ~ (cfg_ValidateBasic c <> None \/ name = "" \/ mp = None \/ mh = None)).
Proof.
  change (cfg_ValidateBasic c <> None \/ name = "" \/ mp = None \/ mh = None)
    with (required_missing c name mp mh).
  set (l0 := mkLaneConstructor c name mp mh None None None : LaneC).
  assert (Hbad : required_missing c name mp mh ->
                 exists err, NewLaneConstructor c name mp mh = Panic err).
  { intros H. destruct (ValidateBasic_error l0 H) as [err E].
    exists err. unfold Constructor.NewLaneConstructor. fold l0.
    now rewrite E. }
  assert (Hgood : ~ required_missing c name mp mh ->
                  exists l', NewLaneConstructor c name mp mh = Ret l').
  { intros H. pose proof (ValidateBasic_ok l0 H) as E.
    eexists. unfold Constructor.NewLaneConstructor. fold l0.
    rewrite E. reflexivity. }
  destruct (required_missing_dec c name mp mh) as [H|H].
  - destruct (Hbad H) as [err E]. split; split.
    + intros _. exact H.
    + intros _. now exists err.
    + intros [l' E']. congruence.
    + intros Hn. contradiction.
  - destruct (Hgood H) as [l' E]. split; split.
    + intros [err E']. congruence.
    + intros Hm. contradiction.
    + intros _. exact H.
    + intros _. now exists l'.
Qed.

(** C3. On a lane with a valid config, a non-empty name, a non-nil mempool
    and a non-nil match handler, [ValidateBasic] returns nil; each of the
    three optional handlers that was nil is then the lane's default handler,
    the others and the rest of the lane are as before, and none of the four
    handlers is nil.  So no handler is nil on a lane that
    [NewLaneConstructor] returns, and the three optional ones are the
    defaults. *)
Theorem ValidateBasic_sets_defaults :
  (forall l,
     cfg_ValidateBasic (cfg l) = None ->
     laneName l <> "" ->
     LaneMempool l <> None ->
     matchHandler l <> None ->
     exists l',
       ValidateBasic l = (None, l') /\
       prepareLaneHandler l' =
         Some (match prepareLaneHandler l with
               | Some h => h
               | None => DefaultPrepareLaneHandler l
               end) /\
       processLaneHandler l' =
         Some (match processLaneHandler l with
               | Some h => h
               | None => DefaultProcessLaneHandler (default_prepare l)
               end) /\
       checkOrderHandler l' =
         Some (match checkOrderHandler l with
               | Some h => h
               | None =>
                 DefaultCheckOrderHandler
                   (default_process (default_prepare l))
               end) /\
       matchHandler l' = matchHandler l /\
       matchHandler l' <> None /\
       cfg l' = cfg l /\ laneName l' = laneName l /\
       LaneMempool l' = LaneMempool l) /\
  (forall c name mp mh l,
     NewLaneConstructor c name mp mh = Ret l ->
     let l0 : LaneC := mkLaneConstructor c name mp mh None None None in
     matchHandler l = mh /\ mh <> None /\
     prepareLaneHandler l = Some (DefaultPrepareLaneHandler l0) /\
     processLaneHandler l =
       Some (DefaultProcessLaneHandler (default_prepare l0)) /\
     checkOrderHandler l =
       Some (DefaultCheckOrderHandler
               (default_process (default_prepare l0)))).
Proof.
  split.
  - intros l Hc Hn Hm Hh.
    assert (Hok : ~ required_missing (cfg l) (laneName l) (LaneMempool l)
                      (matchHandler l)).
    { unfold Constructor.required_missing. intuition. }
    exists (default_checkOrder (default_process (default_prepare l))).
    destruct (defaults_frame l) as (Fc & Fn & Fm & Fh).
    destruct (defaults_handlers l) as (Hp & Hq & Ho).
    split; [apply ValidateBasic_ok, Hok|].
    repeat split; auto. now rewrite Fh.
  - intros c name mp mh l E l0.
    destruct (required_missing_dec c name mp mh) as [H|H].
    + destruct (ValidateBasic_error l0 H) as [err Ee].
      unfold Constructor.NewLaneConstructor in E. fold l0 in E.
      rewrite Ee in E. discriminate.
    + pose proof (ValidateBasic_ok l0 H) as Eo.
      unfold Constructor.NewLaneConstructor in E. fold l0 in E.
      rewrite Eo in E. inversion E; subst l.
      destruct (defaults_frame l0) as (_ & _ & _ & Fh).
      destruct (defaults_handlers l0) as (Hp & Hq & Ho).
      split; [exact Fh|]. split.
      * intros ->. apply H. unfold Constructor.required_missing. auto.
      * auto.
Qed.

(** C8. Each of the three setters replaces its own handler on the lane it
    is called on, a lane that [NewLaneConstructor] returned included, and
    leaves the name, the mempool, the config, the match handler and the
    other two handlers as they were. *)
Theorem SetHandler_frame l (hp : option PrepareLaneHandler)
    (hq : option ProcessLaneHandler) (hc : option CheckOrderHandler) :
  (let l' := SetPrepareLaneHandler l hp in
   prepareLaneHandler l' = hp /\
   laneName l' = laneName l /\ LaneMempool l' = LaneMempool l /\
   cfg l' = cfg l /\ matchHandler l' = matchHandler l /\
   processLaneHandler l' = processLaneHandler l /\
   checkOrderHandler l' = checkOrderHandler l) /\
  (let l' := SetProcessLaneHandler l hq in
   processLaneHandler l' = hq /\
   laneName l' = laneName l /\ LaneMempool l' = LaneMempool l /\
   cfg l' = cfg l /\ matchHandler l' = matchHandler l /\
   prepareLaneHandler l' = prepareLaneHandler l /\
   checkOrderHandler l' = checkOrderHandler l) /\
  (let l' := SetCheckOrderHandler l hc in
   checkOrderHandler l' = hc /\
   laneName l' = laneName l /\ LaneMempool l' = LaneMempool l /\
   cfg l' = cfg l /\ matchHandler l' = matchHandler l /\
   prepareLaneHandler l' = prepareLaneHandler l /\
   processLaneHandler l' = processLaneHandler l).
Proof.
  destruct l as [c n m mh p co pr].
  unfold SetPrepareLaneHandler, SetProcessLaneHandler, SetCheckOrderHandler.
  cbn. repeat split.
Qed.

(** C10. [CheckIgnoreList] decides by the [Match] of the ignored lanes: it
    returns [true] exactly when some lane of the ignore list answers [true]
    to [Match] (the lanes before it having answered [false]; when all of
    them return, exactly when some lane matches), whatever the mempool of
    the lane holds.  An ignored lane that is itself a lane constructor
    answers with its own match handler and its own ignore list.  With an
    empty ignore list [Match] is the match handler's result. *)
Theorem CheckIgnoreList_by_Match l ctx tx :
  (CheckIgnoreList l ctx tx = Ret true <->
   exists pre lane post,
     IgnoreList (cfg l) = pre ++ lane :: post /\
     Forall (fun lane' => Lane_Match lane' ctx tx = Ret false) pre /\
     Lane_Match lane ctx tx = Ret true) /\
  (Forall (fun lane => exists b, Lane_Match lane ctx tx = Ret b)
     (IgnoreList (cfg l)) ->
   (exists b, CheckIgnoreList l ctx tx = Ret b) /\
   (CheckIgnoreList l ctx tx = Ret true <->
    Exists (fun lane => Lane_Match lane ctx tx = Ret true)
      (IgnoreList (cfg l)))) /\
  (forall l2, IgnoreList (cfg l2) = IgnoreList (cfg l) ->
     CheckIgnoreList l2 ctx tx = CheckIgnoreList l ctx tx) /\
  (forall l' h', matchHandler l' = Some h' ->
     Lane_Match (as_Lane l') ctx tx =
       if h' ctx tx then
         match CheckIgnoreList l' ctx tx with
         | Ret b => Ret (negb b)
         | Panic msg => Panic msg
         end
       else Ret false) /\
  (forall h, matchHandler l = Some h -> IgnoreList (cfg l) = [] ->
     Match l ctx tx = Ret (h ctx tx)).
Proof.
  split; [apply range_IgnoreList_true|].
  split; [apply range_IgnoreList_returns|].
  split; [intros l2 E; unfold CheckIgnoreList; now rewrite E|].
  split.
  - intros l' h' E. simpl. unfold Match. now rewrite E.
  - intros h E Hnil. unfold Match, CheckIgnoreList. rewrite E, Hnil. simpl.
    now destruct (h ctx tx).
Qed.

(** *** Validation, getters and setters together *)

Lemma defaults_fixpoint l :
  prepareLaneHandler l <> None ->
  processLaneHandler l <> None ->
  checkOrderHandler l <> None ->
  default_checkOrder (default_process (default_prepare l)) = l.
Proof.
  unfold Constructor.default_checkOrder, Constructor.default_process,
    Constructor.default_prepare.
  destruct l as [c n m mh [p|] [co|] [pr|]]; simpl; intros; congruence.
Qed.

Lemma NewLaneConstructor_inv c name mp mh l :
  NewLaneConstructor c name mp mh = Ret l ->
  ~ required_missing c name mp mh /\
  l = default_checkOrder (default_process (default_prepare
        (mkLaneConstructor c name mp mh None None None))).
Proof.
  intros E. set (l0 := mkLaneConstructor c name mp mh None None None : LaneC).
  destruct (required_missing_dec c name mp mh) as [H|H].
  - destruct (ValidateBasic_error l0 H) as [err Ee].
    unfold Constructor.NewLaneConstructor in E. fold l0 in E.
    rewrite Ee in E. discriminate.
  - pose proof (ValidateBasic_ok l0 H) as Eo.
    unfold Constructor.NewLaneConstructor in E. fold l0 in E.
    rewrite Eo in E. inversion E. auto.
Qed.

(** X1. [ValidateBasic] is idempotent: called on the lane a first call
    left, it returns the same error and leaves the same lane.  A lane that
    [NewLaneConstructor] returned passes it unchanged. *)
Theorem ValidateBasic_idempotent :
  (forall l, ValidateBasic (snd (ValidateBasic l)) = ValidateBasic l) /\
  (forall c name mp mh l,
     NewLaneConstructor c name mp mh = Ret l ->
     ValidateBasic l = (None, l)).
Proof.
  assert (Hfix : forall l,
    ~ required_missing (cfg l) (laneName l) (LaneMempool l)
        (matchHandler l) ->
    let l' := default_checkOrder (default_process (default_prepare l)) in
    ValidateBasic l' = (None, l')).
  { intros l H l'.
    destruct (defaults_frame l) as (Fc & Fn & Fm & Fh).
    destruct (defaults_handlers l) as (Hp & Hq & Ho).
    fold l' in Fc, Fn, Fm, Fh, Hp, Hq, Ho.
    rewrite ValidateBasic_ok by (rewrite Fc, Fn, Fm, Fh; exact H).
    f_equal. apply defaults_fixpoint; congruence. }
  split.
  - intros l.
    destruct (required_missing_dec (cfg l) (laneName l) (LaneMempool l)
                (matchHandler l)) as [H|H].
    + destruct (ValidateBasic_error l H) as [err E]. rewrite E. exact E.
    + rewrite (ValidateBasic_ok l H). exact (Hfix l H).
  - intros c name mp mh l E.
    destruct (NewLaneConstructor_inv c name mp mh l E) as [H ->].
    exact (Hfix (mkLaneConstructor c name mp mh None None None) H).
Qed.

(** X2. [NewLaneConstructor] panics with the error of the first check that
    fails: the config's error before the name's, the name's before the
    mempool's, the mempool's before the match handler's. *)
Theorem NewLaneConstructor_first_error (c : Config) (name : string)
    (mp : option Mempool) (mh : option (MatchHandler Context Tx)) :
  (forall err, cfg_ValidateBasic c = Some err ->
     NewLaneConstructor c name mp mh = Panic err) /\
  (cfg_ValidateBasic c = None -> name = "" ->
     NewLaneConstructor c name mp mh = Panic "lane name cannot be empty") /\
  (cfg_ValidateBasic c = None -> name <> "" -> mp = None ->
     NewLaneConstructor c name mp mh = Panic "lane mempool cannot be nil") /\
  (cfg_ValidateBasic c = None -> name <> "" -> mp <> None -> mh = None ->
     NewLaneConstructor c name mp mh = Panic "match handler cannot be nil").
Proof.
  unfold Constructor.NewLaneConstructor, Constructor.ValidateBasic. simpl.
  repeat split.
  - intros err ->. reflexivity.
  - intros -> ->. reflexivity.
  - intros -> Hn ->. apply String.eqb_neq in Hn. now rewrite Hn.
  - intros -> Hn Hm ->. apply String.eqb_neq in Hn. rewrite Hn.
    destruct mp; [reflexivity | congruence].
Qed.

(** X3. On a lane that [NewLaneConstructor] returned, the getters give
    what the constructor was given: the name, which is not empty, the
    mempool, which is not nil, and the fields of the config, which is
    valid. *)
Theorem constructed_lane_getters (c : Config) (name : string)
    (mp : option Mempool) (mh : option (MatchHandler Context Tx)) l :
  NewLaneConstructor c name mp mh = Ret l ->
  Name l = name /\ name <> "" /\
  LaneMempool l = mp /\ mp <> None /\
  cfg l = c /\ cfg_ValidateBasic c = None /\
  LaneLogger l = cfg_Logger c /\
  LaneTxDecoder l = cfg_TxDecoder c /\
  LaneTxEncoder l = cfg_TxEncoder c /\
  GetMaxBlockSpace l = cfg_MaxBlockSpace c.
Proof.
  intros E. destruct (NewLaneConstructor_inv c name mp mh l E) as [H ->].
  destruct (defaults_frame (mkLaneConstructor c name mp mh None None None))
    as (Fc & Fn & Fm & _).
  unfold Name, LaneLogger, LaneTxDecoder, LaneTxEncoder, GetMaxBlockSpace.
  rewrite Fc, Fn, Fm. simpl.
  unfold Constructor.required_missing in H.
  assert (Hn : name <> "") by (intros ->; apply H; auto).
  assert (Hm : mp <> None) by (intros ->; apply H; auto).
  assert (Hc : cfg_ValidateBasic c = None).
  { destruct (cfg_ValidateBasic c) eqn:Ec; [|reflexivity].
    exfalso. apply H. left. discriminate. }
  tauto.
Qed.

(** X4. The handler setters and [SetAnteHandler] never change what the
    lane matches, nor what is on its ignore list; [SetAnteHandler] changes
    the ante handler and nothing else of the lane. *)
Theorem setters_preserve_Match l (hp : option PrepareLaneHandler)
    (hq : option ProcessLaneHandler) (hc : option CheckOrderHandler)
    (ah : AnteHandler) ctx tx :
  Match (SetPrepareLaneHandler l hp) ctx tx = Match l ctx tx /\
  Match (SetProcessLaneHandler l hq) ctx tx = Match l ctx tx /\
  Match (SetCheckOrderHandler l hc) ctx tx = Match l ctx tx /\
  Match (SetAnteHandler l ah) ctx tx = Match l ctx tx /\
  CheckIgnoreList (SetAnteHandler l ah) ctx tx = CheckIgnoreList l ctx tx /\
  cfg_AnteHandler (cfg (SetAnteHandler l ah)) = ah /\
  Name (SetAnteHandler l ah) = Name l /\
  LaneMempool (SetAnteHandler l ah) = LaneMempool l /\
  LaneLogger (SetAnteHandler l ah) = LaneLogger l /\
  LaneTxDecoder (SetAnteHandler l ah) = LaneTxDecoder l /\
  LaneTxEncoder (SetAnteHandler l ah) = LaneTxEncoder l /\
  GetMaxBlockSpace (SetAnteHandler l ah) = GetMaxBlockSpace l /\
  prepareLaneHandler (SetAnteHandler l ah) = prepareLaneHandler l /\
  processLaneHandler (SetAnteHandler l ah) = processLaneHandler l /\
  checkOrderHandler (SetAnteHandler l ah) = checkOrderHandler l.
Proof.
  destruct l as [[lg te td a0 mb il] n m mh p co pr].
  unfold Match, CheckIgnoreList. cbn. repeat split.
Qed.

(** *** The ignore list *)

Lemma Match_SetIgnoreList l lanes ctx tx :
  Match (SetIgnoreList l lanes) ctx tx =
    match matchHandler l with
    | None => Panic nil_dereference
    | Some h =>
      if h ctx tx then
        match range_IgnoreList lanes ctx tx with
        | Ret b => Ret (negb b)
        | Panic msg => Panic msg
        end
      else Ret false
    end.
Proof. destruct l as [[lg te td a0 mb il] n m mh p co pr]. reflexivity. Qed.

(** X5. Ignoring more lanes never makes a lane match more: a transaction
    the lane matches with a longer ignore list it matches with the shorter
    one; with the empty ignore list the lane matches what its handler
    matches. *)
Theorem SetIgnoreList_more_ignored l lanes
    (more : list (Lane Context Tx)) ctx tx :
  (Match (SetIgnoreList l (lanes ++ more)) ctx tx = Ret true ->
   Match (SetIgnoreList l lanes) ctx tx = Ret true) /\
  (forall h, matchHandler l = Some h ->
     Match (SetIgnoreList l []) ctx tx = Ret (h ctx tx)).
Proof.
  rewrite !Match_SetIgnoreList. split.
  - destruct (matchHandler l) as [h|]; [|discriminate].
    destruct (h ctx tx); [|discriminate].
    destruct (range_IgnoreList (lanes ++ more) ctx tx) as [[|]|msg] eqn:E;
      try discriminate.
    intros _. apply range_IgnoreList_false in E.
    apply Forall_app in E. destruct E as [E _].
    apply range_IgnoreList_false in E. now rewrite E.
  - intros h ->. simpl. now destruct (h ctx tx).
Qed.

Lemma Match_ignored (a b : LaneC) ctx tx :
  In (as_Lane a) (IgnoreList (cfg b)) ->
  Match b ctx tx = Ret true -> Match a ctx tx = Ret false.
Proof.
  intros Hin Hb. unfold Match in Hb.
  destruct (matchHandler b) as [h|]; [|discriminate].
  destruct (h ctx tx); [|discriminate].
  destruct (CheckIgnoreList b ctx tx) as [[|]|msg] eqn:E; try discriminate.
  apply range_IgnoreList_false in E. rewrite Forall_forall in E.
  exact (E _ Hin).
Qed.

(** X6. Lanes of which each ignores those before it never match the same
    transaction: when a lane matches, every lane it ignores answers
    [false]. *)
Theorem Match_exclusive (ls : list LaneC) ctx tx :
  ForallOrdPairs (fun a b => In (as_Lane a) (IgnoreList (cfg b))) ls ->
  ForallOrdPairs
    (fun a b => Match b ctx tx = Ret true -> Match a ctx tx = Ret false) ls
  /\
  ForallOrdPairs
    (fun a b => ~ (Match a ctx tx = Ret true /\ Match b ctx tx = Ret true))
    ls.
Proof.
  induction 1 as [|a ls Ha Hls [IH1 IH2]]; [split; constructor|].
  split; constructor; auto.
  - eapply Forall_impl; [|exact Ha]. intros b Hin. now apply Match_ignored.
  - eapply Forall_impl; [|exact Ha]. intros b Hin [Ea Eb].
    rewrite (Match_ignored a b ctx tx Hin Eb) in Ea. discriminate.
Qed.

Lemma range_IgnoreList_existsb lanes ctx tx :
  Forall (fun lane => exists b, Lane_Match lane ctx tx = Ret b) lanes ->
  range_IgnoreList lanes ctx tx =
    Ret (existsb (fun lane => matches lane ctx tx) lanes).
Proof.
  induction 1 as [|lane lanes [b Hb] Hall IH]; simpl; [reflexivity|].
  unfold matches at 1. rewrite Hb. destruct b; [reflexivity | exact IH].
Qed.

Lemma existsb_Permutation {A : Type} (f : A -> bool) (xs ys : list A) :
  Permutation xs ys -> existsb f xs = existsb f ys.
Proof.
  induction 1; simpl.
  - reflexivity.
  - now rewrite IHPermutation.
  - destruct (f x), (f y); reflexivity.
  - congruence.
Qed.

(** X7. When the match handler is not nil and every ignored lane returns,
    [Match] returns the handler's answer and the negation of the
    disjunction of the ignored lanes' answers. *)
Theorem Match_formula l (h : MatchHandler Context Tx) ctx tx :
  matchHandler l = Some h ->
  Forall (fun lane => exists b, Lane_Match lane ctx tx = Ret b)
    (IgnoreList (cfg l)) ->
  Match l ctx tx =
    Ret (h ctx tx &&
         negb (existsb (fun lane => matches lane ctx tx)
                 (IgnoreList (cfg l)))).
Proof.
  intros Hh Hall. unfold Match, CheckIgnoreList.
  rewrite Hh, (range_IgnoreList_existsb _ ctx tx Hall).
  now destruct (h ctx tx).
Qed.

(** X8. The order of the ignore list does not matter as long as the
    ignored lanes return: replacing the list by a permutation of it leaves
    [Match] as it is. *)
Theorem SetIgnoreList_permutation l lanes ctx tx :
  Permutation (IgnoreList (cfg l)) lanes ->
  Forall (fun lane => exists b, Lane_Match lane ctx tx = Ret b) lanes ->
  Match (SetIgnoreList l lanes) ctx tx = Match l ctx tx.
Proof.
  intros Hperm Hall. rewrite Match_SetIgnoreList. unfold Match.
  destruct (matchHandler l) as [h|]; [|reflexivity].
  destruct (h ctx tx); [|reflexivity].
  unfold CheckIgnoreList.
  rewrite (range_IgnoreList_existsb lanes ctx tx Hall).
  rewrite (range_IgnoreList_existsb (IgnoreList (cfg l)) ctx tx).
  - now rewrite (existsb_Permutation _ _ _ Hperm).
  - eapply Permutation_Forall; [|exact Hall]. now apply Permutation_sym.
Qed.

Lemma range_IgnoreList_panic lanes ctx tx msg :
  range_IgnoreList lanes ctx tx = Panic msg <->
  exists pre lane post,
    lanes = pre ++ lane :: post /\
    Forall (fun lane' => Lane_Match lane' ctx tx = Ret false) pre /\
    Lane_Match lane ctx tx = Panic msg.
Proof.
  induction lanes as [|lane0 lanes IH]; simpl.
  - split; [discriminate|]. intros (pre & lane & post & E & _).
    destruct pre; discriminate.
  - destruct (Lane_Match lane0 ctx tx) as [[|]|msg0] eqn:E0.
    + split; [discriminate|].
      intros (pre & lane & post & E & Hpre & Hm).
      destruct pre as [|p pre]; simpl in E; inversion E; subst.
      * congruence.
      * inversion Hpre; congruence.
    + rewrite IH. split.
      * intros (pre & lane & post & -> & Hpre & Hm).
        exists (lane0 :: pre), lane, post. repeat split; auto.
      * intros (pre & lane & post & E & Hpre & Hm).
        destruct pre as [|p pre]; simpl in E; inversion E; subst.
        -- congruence.
        -- exists pre, lane, post. inversion Hpre; auto.
    + split.
      * intros E. inversion E; subst. exists [], lane0, lanes.
        repeat split; auto.
      * intros (pre & lane & post & E & Hpre & Hm).
        destruct pre as [|p pre]; simpl in E; inversion E; subst.
        -- congruence.
        -- inversion Hpre; congruence.
Qed.

(** X9. When [Match] panics.  With a nil match handler it panics with the
    nil dereference.  When the handler returns [false] it returns [false]
    without asking the ignored lanes, so that none of their panics is
    reached.  When the handler returns [true] it panics exactly when an
    ignored lane panics after the lanes before it answered [false], and
    with that lane's panic. *)
Theorem Match_panic_cases l ctx tx :
  (matchHandler l = None -> Match l ctx tx = Panic nil_dereference) /\
  (forall h, matchHandler l = Some h -> h ctx tx = false ->
     Match l ctx tx = Ret false) /\
  (forall h msg, matchHandler l = Some h -> h ctx tx = true ->
     (Match l ctx tx = Panic msg <->
      exists pre lane post,
        IgnoreList (cfg l) = pre ++ lane :: post /\
        Forall (fun lane' => Lane_Match lane' ctx tx = Ret false) pre /\
        Lane_Match lane ctx tx = Panic msg)).
Proof.
  unfold Match. split; [|split].
  - intros ->. reflexivity.
  - intros h -> ->. reflexivity.
  - intros h msg -> ->. rewrite <- range_IgnoreList_panic.
    unfold CheckIgnoreList.
    destruct (range_IgnoreList (IgnoreList (cfg l)) ctx tx) as [b|msg0].
    + split; discriminate.
    + split; intros E; inversion E; reflexivity.
Qed.

End LaneProperties.

(** ** [strings.Split] *)

Section SplitProperties.

Import Strings.

Variable sep : ascii.

Lemma substring_whole s : substring 0 (String.length s) s = s.
Proof. induction s as [|a s IH]; simpl; [reflexivity | now rewrite IH]. Qed.

Lemma CountByte_bounds s : (0 <= CountByte s sep <= len s)%Z.
Proof.
  unfold len. induction s as [|a s IH]; simpl String.length; simpl CountByte.
  - lia.
  - destruct (Ascii.eqb a sep); lia.
Qed.

Lemma IndexByte_range s :
  IndexByte s sep = (-1)%Z \/ (0 <= IndexByte s sep < len s)%Z.
Proof.
  unfold len. induction s as [|a s IH]; simpl String.length; simpl IndexByte.
  - now left.
  - destruct (Ascii.eqb a sep); [right; lia|].
    destruct (Z.ltb_spec (IndexByte s sep) 0); [now left | right; lia].
Qed.

(** No occurrence is found exactly when there is none to count. *)
Lemma IndexByte_absent s :
  (IndexByte s sep < 0)%Z -> CountByte s sep = 0%Z.
Proof.
  induction s as [|a s IH]; simpl; [reflexivity|].
  destruct (Ascii.eqb a sep); [lia|].
  destruct (Z.ltb_spec (IndexByte s sep) 0); [auto | lia].
Qed.

(** An occurrence found at [m] cuts the string in a part without separator,
    the separator, and a part with one occurrence less. *)
Lemma IndexByte_cut s :
  (0 <= IndexByte s sep)%Z ->
  let m := IndexByte s sep in
  s = (slice_to s m ++ String sep (slice_from s (m + 1)))%string /\
  CountByte (slice_to s m) sep = 0%Z /\
  CountByte s sep = (CountByte (slice_from s (m + 1)) sep + 1)%Z.
Proof.
  induction s as [|a s IH]; simpl IndexByte; [lia|].
  destruct (Ascii.eqb_spec a sep) as [->|Hne].
  - intros _. unfold slice_to, slice_from. simpl.
    rewrite Nat.sub_0_r, substring_whole.
    rewrite Ascii.eqb_refl. auto.
  - destruct (Z.ltb_spec (IndexByte s sep) 0) as [Hlt|Hge]; [lia|].
    intros _. specialize (IH Hge). cbv zeta in IH |- *.
    destruct IH as (Hs & Hpre & Hcnt).
    unfold slice_to, slice_from in *.
    replace (Z.to_nat (IndexByte s sep + 1))
      with (S (Z.to_nat (IndexByte s sep))) in * by lia.
    replace (Z.to_nat (IndexByte s sep + 1 + 1))
      with (S (S (Z.to_nat (IndexByte s sep)))) by lia.
    simpl String.length.
    cbn [substring Nat.sub String.append CountByte].
    apply Ascii.eqb_neq in Hne. rewrite Hne.
    repeat split; [|exact Hpre|exact Hcnt].
    f_equal. exact Hs.
Qed.

Lemma genSplit_loop_nonempty k s : genSplit_loop k s sep <> [].
Proof.
  destruct k; simpl; [discriminate|].
  destruct (IndexByte s sep <? 0)%Z; discriminate.
Qed.

Lemma Join_cons s l :
  l <> [] -> Join (s :: l) sep = (s ++ String sep (Join l sep))%string.
Proof. destruct l; [congruence | reflexivity]. Qed.

(** With enough iterations for the separators of [s], the loop of
    [genSplit] cuts [s] at every separator. *)
Lemma genSplit_loop_spec k : forall s,
  (CountByte s sep <= Z.of_nat k)%Z ->
  Join (genSplit_loop k s sep) sep = s /\
  Forall (fun t => CountByte t sep = 0%Z) (genSplit_loop k s sep) /\
  Z.of_nat (List.length (genSplit_loop k s sep)) = (CountByte s sep + 1)%Z.
Proof.
  induction k as [|k IH]; intros s Hk.
  - pose proof (CountByte_bounds s) as Hb.
    assert (E : CountByte s sep = 0%Z) by lia.
    simpl. rewrite E. repeat split; auto.
  - cbn [genSplit_loop].
    destruct (Z.ltb_spec (IndexByte s sep) 0) as [Hlt|Hge].
    + pose proof (IndexByte_absent s Hlt) as E.
      simpl. rewrite E. repeat split; auto.
    + destruct (IndexByte_cut s Hge) as (Hs & Hpre & Hcnt).
      set (m := IndexByte s sep) in *.
      destruct (IH (slice_from s (m + 1))) as (HJ & HF & HL); [lia|].
      rewrite Join_cons by apply genSplit_loop_nonempty.
      rewrite HJ. repeat split.
      * now rewrite <- Hs.
      * constructor; assumption.
      * cbn [List.length]. lia.
Qed.

(** [Split] cuts at every separator: its pieces hold no separator, joined
    by the separator they give the string back, and there is one more of
    them than separators in the string. *)
Lemma Split_spec s :
  Join (Split s sep) sep = s /\
  Forall (fun t => CountByte t sep = 0%Z) (Split s sep) /\
  Z.of_nat (List.length (Split s sep)) = (CountByte s sep + 1)%Z.
Proof.
  unfold Split. pose proof (CountByte_bounds s) as Hb.
  destruct (Z.ltb_spec (len s + 1) (CountByte s sep + 1)); [lia|].
  apply genSplit_loop_spec. lia.
Qed.

Lemma Split_empty : Split "" sep = [""].
Proof. reflexivity. Qed.

(** X17. Splitting loses nothing and cuts at every separator: the pieces
    joined by the separator are the string again, no piece holds the
    separator, there is one piece more than there are separators, and a
    string without separator is its own single piece. *)
Theorem Split_round_trip s :
  Join (Split s sep) sep = s /\
  Forall (fun t => IndexByte t sep = (-1)%Z) (Split s sep) /\
  Z.of_nat (List.length (Split s sep)) = (CountByte s sep + 1)%Z /\
  (IndexByte s sep = (-1)%Z -> Split s sep = [s]).
Proof.
  destruct (Split_spec s) as (HJ & HF & HL).
  split; [exact HJ|]. split; [|split; [exact HL|]].
  - eapply Forall_impl; [|exact HF]. intros t Ht.
    destruct (IndexByte_range t) as [E|Hr]; [exact E|].
    destruct (IndexByte_cut t (proj1 Hr)) as (_ & _ & Hc).
    pose proof (CountByte_bounds (slice_from t (IndexByte t sep + 1))).
    cbv beta zeta in *. lia.
  - intros Hi. unfold Split.
    rewrite (IndexByte_absent s) by lia.
    destruct (len s + 1 <? 0 + 1)%Z; [|reflexivity].
    destruct (Z.to_nat (len s + 1 - 1)); simpl; [reflexivity|].
    now rewrite Hi.
Qed.

End SplitProperties.

(** ** [base64.StdEncoding.DecodeString] *)

Section Base64Properties.

Import Base64.

(** One iteration of the loop of [Decode]. *)
Lemma Decode_loop_step c rest' si dst :
  Decode_loop (String c rest') si dst =
    let '(rest1, nsi, out, err) := decodeQuantum (String c rest') si in
    match err with
    | Some e => ((dst ++ out)%list, Some e)
    | None => Decode_loop rest1 nsi (dst ++ out)%list
    end.
Proof.
  simp Decode_loop. unfold inspect.
  assert (G : forall b (H : decodeQuantum (String c rest') si = b),
    Decode_loop_unfold_clause_2 c rest' si (exist _ b H) dst =
      let '(rest1, nsi, out, err) := b in
      match err with
      | Some e => ((dst ++ out)%list, Some e)
      | None => Decode_loop rest1 nsi (dst ++ out)%list
      end).
  { intros [[[rest1 nsi] out] [e|]] H; simp Decode_loop; reflexivity. }
  apply G.
Qed.

Lemma skip_newlines_illegal rest : forall si,
  has_illegal_byte rest = true ->
  has_illegal_byte (fst (skip_newlines rest si)) = true.
Proof.
  induction rest as [|c rest IH]; intros si H; simpl in *; [discriminate|].
  destruct (is_newline c) eqn:En; simpl; [|exact H].
  apply IH. unfold illegal_byte in H. rewrite En in H.
  rewrite andb_false_r in H. exact H.
Qed.

Lemma after_padding_illegal rest si j dbuf :
  has_illegal_byte rest = true ->
  fails_or_keeps (after_padding rest si j dbuf).
Proof.
  intros H. unfold after_padding.
  pose proof (skip_newlines_illegal rest si H) as H1.
  destruct (skip_newlines rest si) as [r1 s1]. simpl in H1.
  destruct r1; simpl; [discriminate | left; discriminate].
Qed.

Lemma quantum_for_illegal rest : forall si j dbuf,
  has_illegal_byte rest = true ->
  fails_or_keeps (quantum_for rest si j dbuf).
Proof.
  induction rest as [|c rest IH]; intros si j dbuf H.
  - discriminate.
  - cbn [quantum_for]. destruct (4 <=? j)%nat; [right; exact H|].
    cbn [has_illegal_byte] in H. unfold illegal_byte in H.
    destruct (decodeMap c =? 255)%Z; cbn [negb andb orb] in *;
      [|apply IH; exact H].
    destruct (is_newline c); cbn [negb andb orb] in *; [apply IH; exact H|].
    destruct (Ascii.eqb c StdPadding); cbn [negb andb orb] in *;
      [|left; discriminate].
    destruct j as [|[|[|j]]]; try (left; discriminate).
    + pose proof (skip_newlines_illegal rest (si + 1)%Z H) as H1.
      destruct (skip_newlines rest (si + 1)%Z) as [r1 s1]. simpl in H1.
      destruct r1 as [|c1 r2]; [left; discriminate|].
      cbn [has_illegal_byte] in H1. unfold illegal_byte in H1.
      destruct (Ascii.eqb c1 StdPadding); cbn [negb];
        [|left; discriminate].
      rewrite andb_false_r in H1.
      apply after_padding_illegal. exact H1.
    + apply after_padding_illegal. exact H.
Qed.

Lemma decodeQuantum_illegal rest si :
  has_illegal_byte rest = true ->
  let '(rest1, _, _, err) := decodeQuantum rest si in
  err <> None \/ has_illegal_byte rest1 = true.
Proof.
  intros H. unfold decodeQuantum.
  pose proof (quantum_for_illegal rest si 0 [] H) as Hq.
  destruct (quantum_for rest si 0 []); exact Hq.
Qed.

Lemma Decode_loop_illegal n : forall rest si dst,
  (String.length rest <= n)%nat ->
  has_illegal_byte rest = true ->
  snd (Decode_loop rest si dst) <> None.
Proof.
  induction n as [|n IH]; intros rest si dst Hn H.
  - destruct rest; [discriminate | simpl in Hn; lia].
  - destruct rest as [|c rest']; [discriminate|].
    rewrite Decode_loop_step.
    pose proof (decodeQuantum_illegal (String c rest') si H) as Hq.
    pose proof (decodeQuantum_length (String c rest') si
                  ltac:(discriminate)) as Hl.
    destruct (decodeQuantum (String c rest') si)
      as [[[rest1 nsi] out] [e|]]; simpl in *; [discriminate|].
    destruct Hq as [Hq|Hq]; [congruence|].
    apply IH; [lia | exact Hq].
Qed.

(** A token that holds a byte outside the alphabet, other than the padding
    character and the newlines, does not decode. *)
Lemma DecodeString_illegal_byte s :
  has_illegal_byte s = true -> snd (DecodeString s) <> None.
Proof. apply (Decode_loop_illegal (String.length s)). lia. Qed.

(** Four bytes of the alphabet make a quantum of three bytes. *)
Lemma decodeQuantum_alphabet c0 c1 c2 c3 rest si :
  in_alphabet (String c0 (String c1 (String c2 (String c3 "")))) = true ->
  exists out,
    decodeQuantum (String c0 (String c1 (String c2 (String c3 rest)))) si
      = (rest, (si + 1 + 1 + 1 + 1)%Z, out, None) /\
    List.length out = 3%nat.
Proof.
  cbn [in_alphabet]. intros H.
  repeat (apply andb_prop in H; destruct H as [?H H]).
  unfold decodeQuantum. cbn [quantum_for Nat.leb].
  rewrite H0. cbn [quantum_for Nat.leb]. rewrite H1.
  cbn [quantum_for Nat.leb]. rewrite H2. cbn [quantum_for Nat.leb].
  rewrite H3. cbn [app].
  eexists. split; [destruct rest; reflexivity | reflexivity].
Qed.

Lemma Decode_loop_alphabet n : forall rest si dst,
  String.length rest = (4 * n)%nat ->
  in_alphabet rest = true ->
  exists out,
    Decode_loop rest si dst = ((dst ++ out)%list, None) /\
    List.length out = (3 * n)%nat.
Proof.
  induction n as [|n IH]; intros rest si dst Hl Ha.
  - destruct rest; [|discriminate]. exists []. simp Decode_loop.
    now rewrite app_nil_r.
  - destruct rest as [|c0 [|c1 [|c2 [|c3 rest]]]]; try (simpl in Hl; lia).
    assert (Hq : in_alphabet
                   (String c0 (String c1 (String c2 (String c3 ""))))
                 = true /\ in_alphabet rest = true).
    { cbn [in_alphabet] in *.
      repeat (apply andb_prop in Ha; destruct Ha as [?H Ha]).
      rewrite H, H0, H1, H2. auto. }
    destruct Hq as [Hq Hr].
    destruct (decodeQuantum_alphabet c0 c1 c2 c3 rest si Hq)
      as (out3 & Eq & H3).
    rewrite Decode_loop_step, Eq.
    destruct (IH rest (si + 1 + 1 + 1 + 1)%Z (dst ++ out3)%list)
      as (out & E & Hout); [simpl in Hl; lia | exact Hr |].
    exists (out3 ++ out)%list. rewrite E, <- app_assoc, length_app.
    split; [reflexivity | lia].
Qed.

(** A token of [4 * n] bytes of the alphabet decodes, to [3 * n] bytes. *)
Lemma DecodeString_alphabet s n :
  String.length s = (4 * n)%nat -> in_alphabet s = true ->
  valid s /\ List.length (decoded s) = (3 * n)%nat.
Proof.
  intros Hl Ha. unfold valid, decoded, DecodeString.
  destruct (Decode_loop_alphabet n s 0%Z [] Hl Ha) as (out & E & Hout).
  rewrite E. simpl. auto.
Qed.

(** The decoder is the lenient one of the Go library: it skips newlines,
    and does not ask the unused bits of the last sextet to be zero. *)
Example DecodeString_newline :
  DecodeString (String "a" (String "G" (String "V" (String "s"
    (String "010" (String "b" (String "G" (String "8" (String "=" "")))))))))
  = (["h"; "e"; "l"; "l"; "o"]%byte, None).
Proof. reflexivity. Qed.

Example DecodeString_unused_bits :
  DecodeString "aR==" = DecodeString "aQ==" /\
  DecodeString "aQ==" = (["i"]%byte, None).
Proof. split; reflexivity. Qed.

(** Padding is required, and nothing may follow it. *)
Example DecodeString_padding :
  DecodeString "aGVsbG8" = (["h"; "e"; "l"]%byte, Some (Corrupt 4)) /\
  DecodeString "aGVsbG8=a"
    = (["h"; "e"; "l"; "l"; "o"]%byte, Some (Corrupt 8)) /\
  DecodeString "aG=" = ([], Some (Corrupt 3)).
Proof. repeat split; reflexivity. Qed.

(** *** Where the error points *)

Lemma skip_newlines_index rest : forall si,
  let '(r, n) := skip_newlines rest si in
  (si <= n)%Z /\ (n + Strings.len r = si + Strings.len rest)%Z.
Proof.
  unfold Strings.len.
  induction rest as [|c rest IH]; intros si; simpl; [lia|].
  destruct (is_newline c); [|simpl; lia].
  specialize (IH (si + 1)%Z).
  destruct (skip_newlines rest (si + 1)%Z) as [r n]. lia.
Qed.

Lemma after_padding_index rest si j dbuf si0 :
  (si0 <= si)%Z ->
  exit_in_bounds si0 si (si + Strings.len rest) (after_padding rest si j dbuf).
Proof.
  intros H0. unfold after_padding.
  pose proof (skip_newlines_index rest si) as H.
  destruct (skip_newlines rest si) as [r n].
  assert (0 <= Strings.len r)%Z by (unfold Strings.len; lia).
  destruct r; simpl; (split; [lia|]; split; [lia|]);
    intros k E; inversion E; subst; lia.
Qed.

Lemma quantum_for_index rest : forall si j dbuf si0,
  (si0 + Z.of_nat j <= si)%Z ->
  exit_in_bounds si0 si (si + Strings.len rest) (quantum_for rest si j dbuf).
Proof.
  induction rest as [|c rest IH]; intros si j dbuf si0 Hj.
  - cbn [quantum_for].
    change (Strings.len "") with 0%Z.
    destruct (4 <=? j)%nat; [|destruct j]; cbn [exit_in_bounds];
      change (Strings.len "") with 0%Z;
      (split; [lia|]; split; [lia|]);
      intros k E; inversion E; subst; lia.
  - assert (Hl : (Strings.len (String c rest) = Strings.len rest + 1)%Z)
      by (unfold Strings.len; simpl String.length; lia).
    assert (Hr : (0 <= Strings.len rest)%Z) by (unfold Strings.len; lia).
    rewrite Hl. cbn [quantum_for].
    destruct (4 <=? j)%nat.
    { simpl. rewrite Hl. split; [lia|]. split; [lia|]. discriminate. }
    assert (Hstep : forall j' dbuf', (si0 + Z.of_nat j' <= si + 1)%Z ->
      exit_in_bounds si0 si (si + (Strings.len rest + 1))
        (quantum_for rest (si + 1) j' dbuf')).
    { intros j' dbuf' Hj'. specialize (IH (si + 1)%Z j' dbuf' si0 Hj').
      replace (si + (Strings.len rest + 1))%Z
        with (si + 1 + Strings.len rest)%Z by lia.
      destruct (quantum_for rest (si + 1) j' dbuf');
        simpl in *; (split; [lia|]; tauto). }
    destruct (negb (decodeMap c =? 255)%Z); [apply Hstep; lia|].
    destruct (is_newline c); [apply Hstep; lia|].
    destruct (negb (Ascii.eqb c StdPadding)).
    { simpl. split; [lia|]. split; [lia|].
      intros k E; inversion E; subst; lia. }
    assert (Hpad : forall r s jj,
      (si + 1 <= s)%Z ->
      (s + Strings.len r = si + 1 + Strings.len rest)%Z ->
      exit_in_bounds si0 si (si + (Strings.len rest + 1))
        (after_padding r s jj dbuf)).
    { intros r s jj Hs Hlen.
      pose proof (after_padding_index r s jj dbuf si0 ltac:(lia)) as H.
      replace (si + (Strings.len rest + 1))%Z
        with (s + Strings.len r)%Z by lia.
      destruct (after_padding r s jj dbuf);
        simpl in *; (split; [lia|]; tauto). }
    destruct j as [|[|[|j]]].
    + simpl. split; [lia|]. split; [lia|].
      intros k E; inversion E; subst; lia.
    + simpl. split; [lia|]. split; [lia|].
      intros k E; inversion E; subst; lia.
    + pose proof (skip_newlines_index rest (si + 1)%Z) as H1.
      destruct (skip_newlines rest (si + 1)%Z) as [r1 s1].
      destruct r1 as [|c1 r2].
      * change (Strings.len "") with 0%Z in H1. simpl.
        change (Strings.len "") with 0%Z.
        split; [lia|]. split; [lia|].
        intros k E; inversion E; subst; lia.
      * assert (Hl1 : (Strings.len (String c1 r2) = Strings.len r2 + 1)%Z)
          by (unfold Strings.len; simpl String.length; lia).
        assert (Hr2 : (0 <= Strings.len r2)%Z) by (unfold Strings.len; lia).
        destruct (negb (Ascii.eqb c1 StdPadding)).
        -- simpl. rewrite Hl1. split; [lia|]. split; [lia|].
           intros k E; inversion E; subst; lia.
        -- apply Hpad; lia.
    + apply Hpad; lia.
Qed.

Lemma Decode_loop_index n : forall rest si dst k,
  (String.length rest <= n)%nat ->
  (0 <= si)%Z ->
  snd (Decode_loop rest si dst) = Some (Corrupt k) ->
  (0 <= k <= si + Strings.len rest)%Z.
Proof.
  induction n as [|n IH]; intros rest si dst k Hn Hsi E.
  - destruct rest; [|simpl in Hn; lia]. simp Decode_loop in E.
    discriminate.
  - destruct rest as [|c rest']; [simp Decode_loop in E; discriminate|].
    rewrite Decode_loop_step in E.
    pose proof (quantum_for_index (String c rest') si 0 [] si
                  ltac:(simpl; lia)) as Hq.
    pose proof (decodeQuantum_length (String c rest') si
                  ltac:(discriminate)) as Hlen.
    unfold decodeQuantum in E, Hlen.
    destruct (quantum_for (String c rest') si 0 [])
      as [r nsi err|r nsi dlen dbuf err];
      cbn [exit_in_bounds] in Hq; cbn [fst exit_rest] in Hlen;
      destruct Hq as (H1 & H2 & H3);
      destruct err as [[k']|]; cbn [snd] in E.
    + inversion E; subst. specialize (H3 k eq_refl). lia.
    + specialize (IH r nsi (dst ++ [])%list k ltac:(lia) ltac:(lia) E).
      lia.
    + inversion E; subst. specialize (H3 k eq_refl). lia.
    + match type of E with
      | snd (Decode_loop r nsi ?d) = _ =>
        specialize (IH r nsi d k ltac:(lia) ltac:(lia) E)
      end. lia.
Qed.

(** X18. The offset of a decoding error points into the token or right
    behind it: it is never negative and never more than the length of the
    token. *)
Theorem DecodeString_error_offset s k :
  snd (DecodeString s) = Some (Corrupt k) ->
  (0 <= k <= Strings.len s)%Z.
Proof.
  intros E.
  pose proof (Decode_loop_index (String.length s) s 0%Z [] k
                ltac:(lia) ltac:(lia) E).
  lia.
Qed.

End Base64Properties.

(** ** Decimal rendering *)

Section ItoaProperties.

Import Cli.

Lemma string_of_uint_no_colon d :
  has_colon (NilEmpty.string_of_uint d) = false.
Proof. induction d; simpl; auto. Qed.

Lemma Itoa_no_colon z : has_colon (Itoa z) = false.
Proof.
  unfold Itoa. destruct (Z.to_int z) as [d|d]; simpl;
    apply string_of_uint_no_colon.
Qed.

Lemma Itoa_inj a b : Itoa a = Itoa b -> a = b.
Proof.
  unfold Itoa. intros E.
  assert (E' : Z.to_int a = Z.to_int b).
  { pose proof (NilEmpty.isi (Z.to_int a)) as Ha.
    pose proof (NilEmpty.isi (Z.to_int b)) as Hb.
    rewrite E in Ha. congruence. }
  rewrite <- (DecimalZ.of_to a), <- (DecimalZ.of_to b). now rewrite E'.
Qed.

(** A string without colon is determined by what it is followed by a colon
    in. *)
Lemma before_colon s1 : forall s2 r1 r2,
  has_colon s1 = false -> has_colon s2 = false ->
  (s1 ++ String ":"%char r1 = s2 ++ String ":"%char r2)%string ->
  s1 = s2.
Proof.
  induction s1 as [|c1 s1 IH]; intros [|c2 s2] r1 r2 H1 H2 E;
    simpl in *; try reflexivity.
  - inversion E; subst. unfold is_colon in H2. simpl in H2. discriminate.
  - inversion E; subst. unfold is_colon in H1. simpl in H1. discriminate.
  - inversion E; subst. f_equal.
    apply orb_false_iff in H1, H2. eapply IH; [| |eassumption]; tauto.
Qed.

End ItoaProperties.

(** ** The [auction-bid] command *)

Section CliProperties.

Import Cli.

Variables FlagSet ClientCtx AccAddress Coin lib_error : Type.
Variable lib_Error : lib_error -> string.
Variable flags_Set : FlagSet -> string -> string -> FlagSet * option lib_error.
Variable flags_GetUint64 : FlagSet -> string -> Z * option lib_error.
Variable GetClientTxContext : FlagSet -> ClientCtx * option lib_error.
Variable GetFromAddress : ClientCtx -> AccAddress.
Variable ParseCoinNormalized : string -> Coin * option lib_error.
Variable GenerateOrBroadcastTxCLI :
  ClientCtx -> FlagSet -> MsgAuctionBid AccAddress Coin -> option lib_error.

Local Abbreviation World := (Cli.World FlagSet ClientCtx AccAddress Coin).
Local Abbreviation Msg := (MsgAuctionBid AccAddress Coin).
Local Abbreviation decode_error := (Cli.decode_error lib_Error).
Local Abbreviation decode_tokens :=
  (Cli.decode_tokens (FlagSet := FlagSet) (ClientCtx := ClientCtx)
     (AccAddress := AccAddress) (Coin := Coin) lib_Error).
Local Abbreviation RunE :=
  (Cli.RunE lib_Error flags_Set flags_GetUint64 GetClientTxContext
     GetFromAddress ParseCoinNormalized GenerateOrBroadcastTxCLI).
Local Abbreviation NewAuctionBidTx :=
  (Cli.NewAuctionBidTx lib_Error flags_Set flags_GetUint64
     GetClientTxContext GetFromAddress ParseCoinNormalized
     GenerateOrBroadcastTxCLI).

Implicit Types (w : World) (args tokens : list string) (token : string).

Local Abbreviation decoded := Base64.decoded.
Local Abbreviation valid := Base64.valid.

Lemma decode_error_index_inj i j (e e' : error lib_error) :
  decode_error i e = decode_error j e' -> i = j.
Proof.
  unfold Cli.decode_error. intros E. inversion E as [[Hmsg He]].
  apply Nat2Z.inj, Itoa_inj.
  apply (before_colon _ _ (String " " (Error lib_Error e))
                      (String " " (Error lib_Error e')));
    try apply Itoa_no_colon.
  exact Hmsg.
Qed.

Lemma set_index_app {A : Type} (pre : list A) (y x : A) (post : list A) :
  set_index (pre ++ y :: post) (List.length pre) x = pre ++ x :: post.
Proof. induction pre as [|p pre IH]; simpl; [reflexivity | now rewrite IH]. Qed.

(** The decoding loop on tokens that all decode: the slots from [i] on are
    filled with the decoded bytes, in the order of the tokens. *)
Lemma decode_tokens_valid tokens : forall pre post w,
  Forall valid tokens ->
  List.length post = List.length tokens ->
  decode_tokens tokens (List.length pre) (pre ++ post) w =
    (w, Next (pre ++ map decoded tokens)).
Proof.
  induction tokens as [|token tokens IH]; intros pre post w Hall Hlen.
  - destruct post; [|discriminate]. reflexivity.
  - destruct post as [|y post]; [discriminate|].
    inversion Hall as [|? ? Hv Hall']; subst.
    unfold Base64.valid in Hv. unfold Base64.decoded. simpl.
    destruct (Base64.DecodeString token) as [rawTx err] eqn:E.
    simpl in Hv; subst err.
    rewrite set_index_app.
    replace (pre ++ rawTx :: post) with ((pre ++ [rawTx]) ++ post)
      by now rewrite <- app_assoc.
    replace (S (List.length pre)) with (List.length (pre ++ [rawTx]))
      by (rewrite length_app; simpl; lia).
    rewrite IH; auto. now rewrite <- app_assoc.
Qed.

(** The decoding loop on tokens of which one does not decode: the function
    returns the error of the first such token, wrapped with its index. *)
Lemma decode_tokens_invalid tokens : forall i buf w,
  Exists (fun token => ~ valid token) tokens ->
  exists k token e,
    nth_error tokens k = Some token /\
    snd (Base64.DecodeString token) = Some e /\
    Forall valid (firstn k tokens) /\
    decode_tokens tokens i buf w =
      (w, Return (Some (decode_error (i + k) (corruptInput e)))).
Proof.
  induction tokens as [|token tokens IH]; intros i buf w Hex.
  - inversion Hex.
  - simpl. destruct (Base64.DecodeString token) as [rawTx [e|]] eqn:E.
    + exists 0%nat, token, e. rewrite E, Nat.add_0_r. simpl.
      repeat split; auto.
    + assert (Hex' : Exists (fun token => ~ valid token) tokens).
      { inversion Hex as [? ? Hn|]; subst; auto.
        exfalso. apply Hn. unfold Base64.valid. now rewrite E. }
      destruct (IH (S i) (set_index buf i rawTx) w Hex')
        as (k & t & e & Hn & He & Hf & Hr).
      exists (S k), t, e. simpl.
      rewrite Hr, Nat.add_succ_r. repeat split; auto.
      constructor; [unfold Base64.valid; now rewrite E | exact Hf].
Qed.

(** The runs of [RunE] on three arguments, check by check. *)
Lemma RunE_three (a0 a1 a2 : string) w :
  RunE [a0; a1; a2] w =
    let '(fs, err) := flags_Set (flags w) FlagFrom a0 in
    let w1 := mkWorld fs (broadcasts w) in
    match err with
    | Some e => (w1, Return (Some (lib_err e)))
    | None =>
      let '(clientCtx, err) := GetClientTxContext fs in
      match err with
      | Some e => (w1, Return (Some (lib_err e)))
      | None =>
        let '(bid, err) := ParseCoinNormalized a1 in
        match err with
        | Some e => (w1, Return (Some (lib_err e)))
        | None =>
          if (fst (flags_GetUint64 fs FlagTimeoutHeight) =? 0)%Z then
            (w1, Return (Some (errorString
                                 "timeout height must be greater than 0")))
          else
            let tokens := Strings.Split a2 ","%char in
            match decode_tokens tokens 0 (repeat [] (List.length tokens)) w1
            with
            | (w2, Next txs) =>
              let msg := NewMsgAuctionBid (GetFromAddress clientCtx) bid txs in
              (mkWorld (flags w2) (broadcasts w2 ++ [(clientCtx, flags w2, msg)]),
               Next (option_map lib_err
                       (GenerateOrBroadcastTxCLI clientCtx (flags w2) msg)))
            | (w2, Return err) => (w2, Return err)
            | (w2, Panicked msg) => (w2, Panicked msg)
            end
        end
      end
    end.
Proof.
  unfold Cli.RunE, bind, index, Flags_Set, Flags, return_if_err, return_,
    ret, generateOrBroadcast. simpl.
  destruct (flags_Set (flags w) FlagFrom a0) as [fs [e|]]; simpl; auto.
  destruct (GetClientTxContext fs) as [clientCtx [e|]]; simpl; auto.
  destruct (ParseCoinNormalized a1) as [bid [e|]]; simpl; auto.
  destruct (flags_GetUint64 fs FlagTimeoutHeight) as [timeoutHeight e].
  simpl. destruct (timeoutHeight =? 0)%Z; reflexivity.
Qed.

Lemma execute_three (a0 a1 a2 : string) w :
  execute NewAuctionBidTx [a0; a1; a2] w =
    match RunE [a0; a1; a2] w with
    | (w', Next err) => (w', Ret err)
    | (w', Return err) => (w', Ret err)
    | (w', Panicked msg) => (w', Panic msg)
    end.
Proof. reflexivity. Qed.

(** A wrong number of arguments ends the invocation before [RunE]. *)
Lemma execute_wrong_arity args w :
  List.length args <> 3%nat ->
  exists e, Args NewAuctionBidTx args = Some e /\
            execute NewAuctionBidTx args w = (w, Ret (Some e)).
Proof.
  intros H. unfold execute. simpl Args. unfold ExactArgs.
  destruct (Nat.eqb_spec (List.length args) 3); [contradiction|].
  eexists. split; reflexivity.
Qed.

Lemma valid_dec token : {valid token} + {~ valid token}.
Proof.
  unfold Base64.valid.
  destruct (snd (Base64.DecodeString token)); [right | left];
    [discriminate | reflexivity].
Qed.

(** The loop over the tokens leaves the world as it is: either every token
    decodes and the bundle is the decoded tokens in order, or the function
    returns the decoding error of the first token that does not. *)
Lemma decode_all tokens w :
  (Forall valid tokens /\
   decode_tokens tokens 0 (repeat [] (List.length tokens)) w =
     (w, Next (map decoded tokens))) \/
  (Exists (fun token => ~ valid token) tokens /\
   exists k token e,
     nth_error tokens k = Some token /\
     snd (Base64.DecodeString token) = Some e /\
     Forall valid (firstn k tokens) /\
     decode_tokens tokens 0 (repeat [] (List.length tokens)) w =
       (w, Return (Some (decode_error k (corruptInput e))))).
Proof.
  destruct (Forall_Exists_dec _ valid_dec tokens) as [Hall|Hex].
  - left. split; [exact Hall|].
    apply (decode_tokens_valid tokens [] (repeat [] (List.length tokens)) w
             Hall).
    apply repeat_length.
  - right. split; [exact Hex|].
    exact (decode_tokens_invalid tokens 0
             (repeat [] (List.length tokens)) w Hex).
Qed.

(** The run on which every check passes: the message is handed over, and
    the invocation ends with what [GenerateOrBroadcastTxCLI] returns. *)
Lemma execute_checks_pass (a0 a1 a2 : string) w fs clientCtx bid :
  flags_Set (flags w) FlagFrom a0 = (fs, None) ->
  GetClientTxContext fs = (clientCtx, None) ->
  ParseCoinNormalized a1 = (bid, None) ->
  fst (flags_GetUint64 fs FlagTimeoutHeight) <> 0%Z ->
  Forall valid (Strings.Split a2 ","%char) ->
  let msg := NewMsgAuctionBid (GetFromAddress clientCtx) bid
               (map decoded (Strings.Split a2 ","%char)) in
  execute NewAuctionBidTx [a0; a1; a2] w =
    (mkWorld fs (broadcasts w ++ [(clientCtx, fs, msg)]),
     Ret (option_map lib_err (GenerateOrBroadcastTxCLI clientCtx fs msg))).
Proof.
  intros Hs Hc Hp Ht Hv msg. rewrite execute_three, RunE_three.
  rewrite Hs, Hc, Hp. apply Z.eqb_neq in Ht. rewrite Ht. cbv zeta.
  destruct (decode_all (Strings.Split a2 ","%char)
              (mkWorld fs (broadcasts w))) as [[_ E]|[Hex _]].
  - rewrite E. reflexivity.
  - exfalso. apply Exists_exists in Hex. destruct Hex as (t & Hin & Hn).
    rewrite Forall_forall in Hv. exact (Hn (Hv t Hin)).
Qed.

Ltac rejected := left; do 2 eexists; split; reflexivity.

(** A run that does not pass every check ends with an error and hands
    nothing over. *)
Lemma execute_three_cases (a0 a1 a2 : string) w :
  (exists w' e,
     execute NewAuctionBidTx [a0; a1; a2] w = (w', Ret (Some e)) /\
     broadcasts w' = broadcasts w) \/
  (exists fs clientCtx bid,
     flags_Set (flags w) FlagFrom a0 = (fs, None) /\
     GetClientTxContext fs = (clientCtx, None) /\
     ParseCoinNormalized a1 = (bid, None) /\
     fst (flags_GetUint64 fs FlagTimeoutHeight) <> 0%Z /\
     Forall valid (Strings.Split a2 ","%char)).
Proof.
  rewrite execute_three, RunE_three.
  destruct (flags_Set (flags w) FlagFrom a0) as [fs [e|]] eqn:Hs;
    [rejected|].
  destruct (GetClientTxContext fs) as [clientCtx [e|]] eqn:Hc;
    [rejected|].
  destruct (ParseCoinNormalized a1) as [bid [e|]] eqn:Hp; [rejected|].
  destruct (Z.eqb_spec (fst (flags_GetUint64 fs FlagTimeoutHeight)) 0)
    as [Ht|Ht]; [rejected|].
  cbv zeta.
  destruct (decode_all (Strings.Split a2 ","%char)
              (mkWorld fs (broadcasts w)))
    as [[Hv E]|[Hex (k & t & e & _ & _ & _ & E)]].
  - right. exists fs, clientCtx, bid. auto.
  - rewrite E. rejected.
Qed.

(** C4. Every invocation in which the timeout height read from the flags
    is 0 ends with an error, so that the exit code is not 0, and hands no
    message to [GenerateOrBroadcastTxCLI]. *)
Theorem timeout_zero_is_rejected args w :
  (forall a0 rest, args = a0 :: rest ->
     fst (flags_GetUint64 (fst (flags_Set (flags w) FlagFrom a0))
            FlagTimeoutHeight) = 0%Z) ->
  exists w' e,
    execute NewAuctionBidTx args w = (w', Ret (Some e)) /\
    exits_with_zero (snd (execute NewAuctionBidTx args w)) = false /\
    broadcasts w' = broadcasts w.
Proof.
  intros Ht.
  assert (G : exists w' e,
             execute NewAuctionBidTx args w = (w', Ret (Some e)) /\
             broadcasts w' = broadcasts w).
  { destruct (Nat.eq_dec (List.length args) 3) as [H3|H3].
    - destruct args as [|a0 [|a1 [|a2 [|a3 rest]]]]; try discriminate.
      destruct (execute_three_cases a0 a1 a2 w)
        as [Herr|(fs & c & b & Hs & _ & _ & Hnz & _)]; [exact Herr|].
      specialize (Ht a0 [a1; a2] eq_refl). rewrite Hs in Ht. contradiction.
    - destruct (execute_wrong_arity args w H3) as (e & _ & E). eauto. }
  destruct G as (w' & e & E & Hb). exists w', e.
  rewrite E. auto.
Qed.

(** C5, as the code has it. Every invocation in which some token of the
    third argument does not decode ends with an error and hands no message
    over; when the from flag is set, the client context built, the bid
    coin parsed and the timeout height not 0, the error is the decoding
    error of the first such token, whose message carries the index of that
    token; and the index can be read off the error. *)
Theorem invalid_token_is_rejected (a0 a1 a2 : string) w :
  Exists (fun token => ~ valid token) (Strings.Split a2 ","%char) ->
  (exists w' e,
     execute NewAuctionBidTx [a0; a1; a2] w = (w', Ret (Some e)) /\
     broadcasts w' = broadcasts w) /\
  (forall fs clientCtx bid,
     flags_Set (flags w) FlagFrom a0 = (fs, None) ->
     GetClientTxContext fs = (clientCtx, None) ->
     ParseCoinNormalized a1 = (bid, None) ->
     fst (flags_GetUint64 fs FlagTimeoutHeight) <> 0%Z ->
     exists k token e,
       nth_error (Strings.Split a2 ","%char) k = Some token /\
       snd (Base64.DecodeString token) = Some e /\
       Forall valid (firstn k (Strings.Split a2 ","%char)) /\
       execute NewAuctionBidTx [a0; a1; a2] w =
         (mkWorld fs (broadcasts w),
          Ret (Some (decode_error k (corruptInput e))))) /\
  (forall i j (e e' : error lib_error),
     decode_error i e = decode_error j e' -> i = j).
Proof.
  intros Hex. split; [|split].
  - destruct (execute_three_cases a0 a1 a2 w)
      as [Herr|(fs & c & b & _ & _ & _ & _ & Hv)]; [exact Herr|].
    exfalso. apply Exists_exists in Hex. destruct Hex as (t & Hin & Hn).
    rewrite Forall_forall in Hv. exact (Hn (Hv t Hin)).
  - intros fs clientCtx bid Hs Hc Hp Ht.
    rewrite execute_three, RunE_three, Hs, Hc, Hp.
    apply Z.eqb_neq in Ht. rewrite Ht. cbv zeta.
    destruct (decode_tokens_invalid (Strings.Split a2 ","%char) 0
                (repeat [] (List.length (Strings.Split a2 ","%char)))
                (mkWorld fs (broadcasts w)) Hex)
      as (k & t & e & Hn & He & Hf & E).
    exists k, t, e. rewrite E. auto.
  - apply decode_error_index_inj.
Qed.

(** C6. The command takes exactly three arguments.  When every check
    passes it has set the from flag to the first argument, parsed the
    second as the bid, split the third at the commas and decoded each token,
    in order, and it hands [MsgAuctionBid(from address, bid, bundle)] to
    [GenerateOrBroadcastTxCLI], whose result it returns; an invocation that
    ends without error is such a run.  A bid that does not parse ends the
    invocation with an error. *)
Theorem auction_bid_command :
  (forall args,
     Args NewAuctionBidTx args = None <-> List.length args = 3%nat) /\
  (forall args w,
     List.length args <> 3%nat ->
     exists e, Args NewAuctionBidTx args = Some e /\
               execute NewAuctionBidTx args w = (w, Ret (Some e))) /\
  (forall (a0 a1 a2 : string) w fs clientCtx bid,
     flags_Set (flags w) FlagFrom a0 = (fs, None) ->
     GetClientTxContext fs = (clientCtx, None) ->
     ParseCoinNormalized a1 = (bid, None) ->
     fst (flags_GetUint64 fs FlagTimeoutHeight) <> 0%Z ->
     Forall valid (Strings.Split a2 ","%char) ->
     let msg := NewMsgAuctionBid (GetFromAddress clientCtx) bid
                  (map decoded (Strings.Split a2 ","%char)) in
     execute NewAuctionBidTx [a0; a1; a2] w =
       (mkWorld fs (broadcasts w ++ [(clientCtx, fs, msg)]),
        Ret (option_map lib_err
               (GenerateOrBroadcastTxCLI clientCtx fs msg)))) /\
  (forall args w w',
     execute NewAuctionBidTx args w = (w', Ret None) ->
     exists (a0 a1 a2 : string) fs clientCtx bid,
       args = [a0; a1; a2] /\
       flags_Set (flags w) FlagFrom a0 = (fs, None) /\
       GetClientTxContext fs = (clientCtx, None) /\
       ParseCoinNormalized a1 = (bid, None) /\
       fst (flags_GetUint64 fs FlagTimeoutHeight) <> 0%Z /\
       Forall valid (Strings.Split a2 ","%char) /\
       let msg := NewMsgAuctionBid (GetFromAddress clientCtx) bid
                    (map decoded (Strings.Split a2 ","%char)) in
       GenerateOrBroadcastTxCLI clientCtx fs msg = None /\
       w' = mkWorld fs (broadcasts w ++ [(clientCtx, fs, msg)])) /\
  (forall (a0 a1 a2 : string) w bid e,
     ParseCoinNormalized a1 = (bid, Some e) ->
     exists w' e',
       execute NewAuctionBidTx [a0; a1; a2] w = (w', Ret (Some e')) /\
       broadcasts w' = broadcasts w).
Proof.
  split.
  { intros args. simpl Args. unfold ExactArgs.
    destruct (Nat.eqb_spec (List.length args) 3);
      split; intros; congruence. }
  split; [exact execute_wrong_arity|].
  split; [exact execute_checks_pass|].
  split.
  - intros args w w' E.
    destruct (Nat.eq_dec (List.length args) 3) as [H3|H3].
    + destruct args as [|a0 [|a1 [|a2 [|a3 rest]]]]; try discriminate.
      destruct (execute_three_cases a0 a1 a2 w)
        as [(w1 & e & E1 & _)|(fs & c & b & Hs & Hc & Hp & Ht & Hv)].
      * rewrite E1 in E. discriminate.
      * exists a0, a1, a2, fs, c, b.
        pose proof (execute_checks_pass a0 a1 a2 w fs c b Hs Hc Hp Ht Hv) as E2.
        cbv zeta in E2 |- *. rewrite E2 in E.
        inversion E as [[Hw Hr]].
        repeat split; auto.
        destruct (GenerateOrBroadcastTxCLI _ _ _); [discriminate|reflexivity].
    + destruct (execute_wrong_arity args w H3) as (e & _ & E1).
      rewrite E1 in E. discriminate.
  - intros a0 a1 a2 w bid e Hp.
    destruct (execute_three_cases a0 a1 a2 w)
      as [Herr|(fs & c & b & _ & _ & Hp' & _)]; [exact Herr|].
    rewrite Hp in Hp'. discriminate.
Qed.

Lemma snoc_neq {A : Type} (l : list A) (x : A) : l ++ [x] <> l.
Proof.
  intros E. apply (f_equal (@List.length A)) in E.
  rewrite length_app in E. simpl in E. lia.
Qed.

(** C9, as the code has it.  With the empty string as third argument,
    [Split] gives the single empty token, which decodes to no bytes; the
    invocation in which the from flag is set, the client context built, the
    bid coin parsed and the timeout height not 0 hands over a message whose
    bundle is one empty transaction and ends with what
    [GenerateOrBroadcastTxCLI] returns; and an invocation with the empty
    third argument that ends handing nothing over ends the same way with
    any other third argument: it is not the empty argument that makes it
    fail. *)
Theorem empty_bundle_argument :
  Strings.Split "" ","%char = [""] /\
  Base64.DecodeString "" = ([], None) /\
  (forall (a0 a1 : string) w fs clientCtx bid,
     flags_Set (flags w) FlagFrom a0 = (fs, None) ->
     GetClientTxContext fs = (clientCtx, None) ->
     ParseCoinNormalized a1 = (bid, None) ->
     fst (flags_GetUint64 fs FlagTimeoutHeight) <> 0%Z ->
     let msg := NewMsgAuctionBid (GetFromAddress clientCtx) bid [[]] in
     execute NewAuctionBidTx [a0; a1; ""] w =
       (mkWorld fs (broadcasts w ++ [(clientCtx, fs, msg)]),
        Ret (option_map lib_err
               (GenerateOrBroadcastTxCLI clientCtx fs msg)))) /\
  (forall (a0 a1 : string) w w' r,
     execute NewAuctionBidTx [a0; a1; ""] w = (w', r) ->
     broadcasts w' = broadcasts w ->
     forall a2 : string, execute NewAuctionBidTx [a0; a1; a2] w = (w', r)).
Proof.
  assert (Hd : Base64.DecodeString "" = ([], None)) by reflexivity.
  assert (Hv : Forall valid (Strings.Split "" ","%char)).
  { constructor; [|constructor]. unfold Base64.valid. now rewrite Hd. }
  split; [reflexivity|]. split; [exact Hd|]. split.
  - intros a0 a1 w fs clientCtx bid Hs Hc Hp Ht.
    exact (execute_checks_pass a0 a1 "" w fs clientCtx bid Hs Hc Hp Ht Hv).
  - intros a0 a1 w w' r E Hb a2.
    destruct (flags_Set (flags w) FlagFrom a0) as [fs [e|]] eqn:Hs;
      [rewrite execute_three, RunE_three, Hs in *; exact E|].
    destruct (GetClientTxContext fs) as [clientCtx [e|]] eqn:Hc;
      [rewrite execute_three, RunE_three, Hs, Hc in *; exact E|].
    destruct (ParseCoinNormalized a1) as [bid [e|]] eqn:Hp;
      [rewrite execute_three, RunE_three, Hs, Hc, Hp in *; exact E|].
    destruct (Z.eqb_spec (fst (flags_GetUint64 fs FlagTimeoutHeight)) 0)
      as [Ht|Ht].
    + rewrite execute_three, RunE_three, Hs, Hc, Hp, Ht in *. exact E.
    + exfalso.
      rewrite (execute_checks_pass a0 a1 "" w fs clientCtx bid
                 Hs Hc Hp Ht Hv) in E.
      inversion E as [[Hw Hr]]. subst w'. simpl in Hb.
      exact (snoc_neq _ _ Hb).
Qed.

(** *** Further properties of the command *)

(** X10. An invocation never panics: the argument check keeps [RunE] from
    indexing past the arguments.  [RunE] on its own, on fewer than three
    arguments, panics at the first argument it cannot read, unless a check
    before that read fails, whose error it then returns: without argument
    it panics at once; with one it panics once the from flag is set and the
    client context built; with two once, further, the bid coin is parsed
    and the timeout height is not 0. *)
Theorem execute_never_panics :
  (forall args w,
     exists w' r, execute NewAuctionBidTx args w = (w', Ret r)) /\
  (forall w,
     RunE [] w =
       (w, Panicked "runtime error: index out of range [0] with length 0")) /\
  (forall (a0 : string) w,
     RunE [a0] w =
       let '(fs, err) := flags_Set (flags w) FlagFrom a0 in
       let w1 := mkWorld fs (broadcasts w) in
       match err with
       | Some e => (w1, Return (Some (lib_err e)))
       | None =>
         match snd (GetClientTxContext fs) with
         | Some e => (w1, Return (Some (lib_err e)))
         | None =>
           (w1, Panicked
                  "runtime error: index out of range [1] with length 1")
         end
       end) /\
  (forall (a0 a1 : string) w,
     RunE [a0; a1] w =
       let '(fs, err) := flags_Set (flags w) FlagFrom a0 in
       let w1 := mkWorld fs (broadcasts w) in
       match err with
       | Some e => (w1, Return (Some (lib_err e)))
       | None =>
         match snd (GetClientTxContext fs) with
         | Some e => (w1, Return (Some (lib_err e)))
         | None =>
           match snd (ParseCoinNormalized a1) with
           | Some e => (w1, Return (Some (lib_err e)))
           | None =>
             if (fst (flags_GetUint64 fs FlagTimeoutHeight) =? 0)%Z then
               (w1, Return (Some (errorString
                                    "timeout height must be greater than 0")))
             else
               (w1, Panicked
                      "runtime error: index out of range [2] with length 2")
           end
         end
       end).
Proof.
  split; [|split; [|split]].
  - intros args w.
    destruct (Nat.eq_dec (List.length args) 3) as [H3|H3].
    + destruct args as [|a0 [|a1 [|a2 [|a3 rest]]]]; try discriminate.
      destruct (execute_three_cases a0 a1 a2 w)
        as [(w' & e & E & _)|(fs & c & b & Hs & Hc & Hp & Ht & Hv)].
      * eauto.
      * rewrite (execute_checks_pass a0 a1 a2 w fs c b Hs Hc Hp Ht Hv).
        eauto.
    + destruct (execute_wrong_arity args w H3) as (e & _ & E). eauto.
  - intros w. reflexivity.
  - intros a0 w.
    unfold Cli.RunE, bind, index, Flags_Set, Flags, return_if_err, return_,
      ret. simpl.
    destruct (flags_Set (flags w) FlagFrom a0) as [fs [e|]]; simpl;
      [reflexivity|].
    destruct (GetClientTxContext fs) as [clientCtx [e|]]; reflexivity.
  - intros a0 a1 w.
    unfold Cli.RunE, bind, index, Flags_Set, Flags, return_if_err, return_,
      ret. simpl.
    destruct (flags_Set (flags w) FlagFrom a0) as [fs [e|]]; simpl;
      [reflexivity|].
    destruct (GetClientTxContext fs) as [clientCtx [e|]]; simpl;
      [reflexivity|].
    destruct (ParseCoinNormalized a1) as [bid [e|]]; simpl; [reflexivity|].
    destruct (flags_GetUint64 fs FlagTimeoutHeight) as [timeoutHeight e].
    simpl. destruct (timeoutHeight =? 0)%Z; reflexivity.
Qed.

(** X11. An invocation hands at most one message over and keeps what was
    handed over before.  When it hands none over it ends with an error;
    when it hands one over it ends with what [GenerateOrBroadcastTxCLI]
    returned for it, and with no error of its own. *)
Theorem at_most_one_broadcast args w :
  exists w' r,
    execute NewAuctionBidTx args w = (w', r) /\
    ((broadcasts w' = broadcasts w /\ exists e, r = Ret (Some e)) \/
     (exists clientCtx fs msg,
        broadcasts w' = broadcasts w ++ [(clientCtx, fs, msg)] /\
        r = Ret (option_map lib_err
                   (GenerateOrBroadcastTxCLI clientCtx fs msg)))).
Proof.
  destruct (Nat.eq_dec (List.length args) 3) as [H3|H3].
  - destruct args as [|a0 [|a1 [|a2 [|a3 rest]]]]; try discriminate.
    destruct (execute_three_cases a0 a1 a2 w)
      as [(w' & e & E & Hb)|(fs & c & b & Hs & Hc & Hp & Ht & Hv)].
    + exists w', (Ret (Some e)). split; [exact E|]. left. eauto.
    + pose proof (execute_checks_pass a0 a1 a2 w fs c b Hs Hc Hp Ht Hv)
        as E. cbv zeta in E.
      eexists _, _. split; [exact E|]. right. simpl. eauto.
  - destruct (execute_wrong_arity args w H3) as (e & _ & E).
    exists w, (Ret (Some e)). split; [exact E|]. left. eauto.
Qed.

(** X12. The checks are made in a fixed order and the first one that fails
    gives the error, unchanged, whatever the later ones would be: the from
    flag, then the client context, then the bid coin, then the timeout
    height; the third argument is not looked at before. *)
Theorem check_order (a0 a1 a2 : string) w :
  (forall fs e,
     flags_Set (flags w) FlagFrom a0 = (fs, Some e) ->
     execute NewAuctionBidTx [a0; a1; a2] w =
       (mkWorld fs (broadcasts w), Ret (Some (lib_err e)))) /\
  (forall fs clientCtx e,
     flags_Set (flags w) FlagFrom a0 = (fs, None) ->
     GetClientTxContext fs = (clientCtx, Some e) ->
     execute NewAuctionBidTx [a0; a1; a2] w =
       (mkWorld fs (broadcasts w), Ret (Some (lib_err e)))) /\
  (forall fs clientCtx bid e,
     flags_Set (flags w) FlagFrom a0 = (fs, None) ->
     GetClientTxContext fs = (clientCtx, None) ->
     ParseCoinNormalized a1 = (bid, Some e) ->
     execute NewAuctionBidTx [a0; a1; a2] w =
       (mkWorld fs (broadcasts w), Ret (Some (lib_err e)))) /\
  (forall fs clientCtx bid,
     flags_Set (flags w) FlagFrom a0 = (fs, None) ->
     GetClientTxContext fs = (clientCtx, None) ->
     ParseCoinNormalized a1 = (bid, None) ->
     fst (flags_GetUint64 fs FlagTimeoutHeight) = 0%Z ->
     execute NewAuctionBidTx [a0; a1; a2] w =
       (mkWorld fs (broadcasts w),
        Ret (Some (errorString "timeout height must be greater than 0")))).
Proof.
  rewrite execute_three, RunE_three. repeat split.
  - intros fs e ->. reflexivity.
  - intros fs c e -> ->. reflexivity.
  - intros fs c b e -> -> ->. reflexivity.
  - intros fs c b -> -> -> ->. reflexivity.
Qed.

(** X13. Every invocation with three arguments leaves the from flag set to
    the first argument, also when it ends with an error; an invocation
    with another number of arguments leaves the command as it was. *)
Theorem from_flag_is_set :
  (forall (a0 a1 a2 : string) w,
     flags (fst (execute NewAuctionBidTx [a0; a1; a2] w)) =
       fst (flags_Set (flags w) FlagFrom a0)) /\
  (forall args w,
     List.length args <> 3%nat ->
     fst (execute NewAuctionBidTx args w) = w).
Proof.
  split.
  - intros a0 a1 a2 w. rewrite execute_three, RunE_three.
    destruct (flags_Set (flags w) FlagFrom a0) as [fs [e|]];
      [reflexivity|].
    destruct (GetClientTxContext fs) as [clientCtx [e|]]; [reflexivity|].
    destruct (ParseCoinNormalized a1) as [bid [e|]]; [reflexivity|].
    destruct (fst (flags_GetUint64 fs FlagTimeoutHeight) =? 0)%Z;
      [reflexivity|].
    cbv zeta.
    destruct (decode_all (Strings.Split a2 ","%char)
                (mkWorld fs (broadcasts w)))
      as [[_ E]|[_ (k & t & e & _ & _ & _ & E)]]; rewrite E; reflexivity.
  - intros args w H3.
    destruct (execute_wrong_arity args w H3) as (e & _ & E).
    now rewrite E.
Qed.

(** X14. The bundle of a message that is handed over holds the decoded
    tokens of the third argument, all of which decode: one transaction more
    than there are commas in the argument, so never none. *)
Theorem bundle_size (a0 a1 a2 : string) w w' r clientCtx fs msg :
  execute NewAuctionBidTx [a0; a1; a2] w = (w', r) ->
  broadcasts w' = broadcasts w ++ [(clientCtx, fs, msg)] ->
  Transactions msg = map decoded (Strings.Split a2 ","%char) /\
  Forall valid (Strings.Split a2 ","%char) /\
  Z.of_nat (List.length (Transactions msg))
    = (Strings.CountByte a2 ","%char + 1)%Z /\
  Transactions msg <> [].
Proof.
  intros E Hb.
  destruct (execute_three_cases a0 a1 a2 w)
    as [(w1 & e & E1 & Hb1)|(fs' & c & b & Hs & Hc & Hp & Ht & Hv)].
  - rewrite E1 in E. inversion E; subst. rewrite Hb1 in Hb.
    symmetry in Hb. exfalso. exact (snoc_neq _ _ Hb).
  - pose proof (execute_checks_pass a0 a1 a2 w fs' c b Hs Hc Hp Ht Hv)
      as E2. cbv zeta in E2. rewrite E2 in E. inversion E; subst.
    simpl in Hb. apply app_inv_head in Hb. inversion Hb; subst.
    destruct (Split_spec ","%char a2) as (_ & _ & Hlen).
    assert (Hl : Z.of_nat (List.length
                   (map decoded (Strings.Split a2 ","%char)))
                 = (Strings.CountByte a2 ","%char + 1)%Z).
    { now rewrite length_map. }
    simpl. repeat split; auto.
    intros Hnil. rewrite Hnil in Hl. simpl in Hl.
    pose proof (CountByte_bounds ","%char a2). lia.
Qed.

Lemma CountByte_app s1 s2 c :
  Strings.CountByte (s1 ++ s2) c
  = (Strings.CountByte s1 c + Strings.CountByte s2 c)%Z.
Proof.
  induction s1 as [|a s1 IH]; simpl; [reflexivity|].
  rewrite IH. destruct (Ascii.eqb a c); lia.
Qed.

Lemma CountByte_Join tokens sep c :
  c <> sep ->
  (0 < Strings.CountByte (Strings.Join tokens sep) c)%Z ->
  Exists (fun token => (0 < Strings.CountByte token c)%Z) tokens.
Proof.
  intros Hne. induction tokens as [|t tokens IH]; simpl.
  - lia.
  - destruct tokens as [|t' tokens].
    + intros H. now constructor.
    + rewrite CountByte_app. cbn [Strings.CountByte].
      destruct (Ascii.eqb_spec sep c) as [->|_]; [congruence|].
      intros H.
      destruct (Z.ltb_spec 0 (Strings.CountByte t c));
        [now constructor|].
      constructor 2. apply IH. lia.
Qed.

Lemma CountByte_illegal token c :
  Base64.illegal_byte c = true ->
  (0 < Strings.CountByte token c)%Z ->
  Base64.has_illegal_byte token = true.
Proof.
  intros Hc. induction token as [|a token IH]; simpl; [lia|].
  destruct (Ascii.eqb_spec a c) as [->|_].
  - intros _. now rewrite Hc.
  - intros H. rewrite (IH H). apply orb_true_r.
Qed.

(** X15. A third argument that holds a byte no token may hold (one outside
    the alphabet that is not the padding character, a newline or the comma)
    is never handed over: the invocation ends with an error. *)
Theorem illegal_byte_is_rejected (a0 a1 a2 : string) w (c : ascii) :
  Base64.illegal_byte c = true ->
  c <> ","%char ->
  (0 < Strings.CountByte a2 c)%Z ->
  exists w' e,
    execute NewAuctionBidTx [a0; a1; a2] w = (w', Ret (Some e)) /\
    broadcasts w' = broadcasts w.
Proof.
  intros Hc Hne Hin.
  destruct (execute_three_cases a0 a1 a2 w)
    as [Herr|(fs & cc & b & _ & _ & _ & _ & Hv)]; [exact Herr|].
  exfalso.
  destruct (Split_spec ","%char a2) as (HJ & _ & _).
  rewrite <- HJ in Hin.
  apply (CountByte_Join _ _ _ Hne) in Hin.
  apply Exists_exists in Hin. destruct Hin as (t & Ht & Hcnt).
  rewrite Forall_forall in Hv.
  exact (DecodeString_illegal_byte t (CountByte_illegal t c Hc Hcnt)
           (Hv t Ht)).
Qed.

(** X16. A third argument whose tokens are made of bytes of the alphabet
    and are a multiple of four bytes long is accepted when the other checks
    pass: the message is handed over, with three bytes of transaction for
    every four bytes of token. *)
Theorem alphabet_tokens_are_accepted (a0 a1 a2 : string) w fs clientCtx
    bid :
  flags_Set (flags w) FlagFrom a0 = (fs, None) ->
  GetClientTxContext fs = (clientCtx, None) ->
  ParseCoinNormalized a1 = (bid, None) ->
  fst (flags_GetUint64 fs FlagTimeoutHeight) <> 0%Z ->
  Forall (fun token =>
            Base64.in_alphabet token = true /\
            exists n, String.length token = (4 * n)%nat)
    (Strings.Split a2 ","%char) ->
  exists msg,
    execute NewAuctionBidTx [a0; a1; a2] w =
      (mkWorld fs (broadcasts w ++ [(clientCtx, fs, msg)]),
       Ret (option_map lib_err
              (GenerateOrBroadcastTxCLI clientCtx fs msg))) /\
    Forall2 (fun token rawTx =>
               (4 * List.length rawTx = 3 * String.length token)%nat)
      (Strings.Split a2 ","%char) (Transactions msg).
Proof.
  intros Hs Hc Hp Ht Hall.
  assert (Hv : Forall valid (Strings.Split a2 ","%char)).
  { eapply Forall_impl; [|exact Hall]. intros t [Ha [n Hn]].
    exact (proj1 (DecodeString_alphabet t n Hn Ha)). }
  eexists. split.
  - exact (execute_checks_pass a0 a1 a2 w fs clientCtx bid Hs Hc Hp Ht Hv).
  - simpl. induction Hall as [|t ts [Ha [n Hn]] Hts IH]; simpl;
      constructor.
    + destruct (DecodeString_alphabet t n Hn Ha) as [_ Hl].
      rewrite Hl, Hn. lia.
    + apply IH. now inversion Hv.
Qed.

End CliProperties.

(** ** The genesis declaration *)

Section ProtoProperties.

Import Proto.

(** C7. [Params] has exactly seven fields: [max_bundle_size] (u32),
    [escrow_account_address] (string), [reserve_fee], [min_buy_in_fee] and
    [min_bid_increment] (Coin), [front_running_protection] (bool) and
    [proposer_fee] (decimal), numbered 1 to 7; and [GenesisState] has one
    field, a [Params]. *)
Theorem Params_and_GenesisState_fields :
  signature Params =
    [ ("max_bundle_size", k_u32);
      ("escrow_account_address", k_string);
      ("reserve_fee", k_Coin);
      ("min_buy_in_fee", k_Coin);
      ("min_bid_increment", k_Coin);
      ("front_running_protection", k_bool);
      ("proposer_fee", k_Decimal) ] /\
  List.length (m_fields Params) = 7%nat /\
  map f_number (m_fields Params) = [1; 2; 3; 4; 5; 6; 7]%Z /\
  signature GenesisState = [("params", k_message "Params")] /\
  lookup_message "Params" = Some Params.
Proof.
  unfold signature, lookup_message. cbn. repeat split.
Qed.

End ProtoProperties.

(** ** The statements on the sample instances *)

Section OnSamples.

Import Sample.

(** The sample default lane matches every transaction but those of the
    two lanes it ignores; the free lane matches bids, but ignores the
    top-of-block lane, which takes them. *)
Example Match_on_sample_lanes :
  Constructor.Match default tt "send" = Ret true /\
  Constructor.Match default tt "free" = Ret false /\
  Constructor.Match default tt "bid" = Ret false /\
  Constructor.Match free tt "free" = Ret true /\
  Constructor.Match free tt "bid" = Ret false /\
  Constructor.Match tob tt "bid" = Ret true.
Proof. repeat split; reflexivity. Qed.

(** A lane whose match handler is nil, and a lane that ignores it. *)
Example Match_nil_handler :
  let broken : LaneC :=
    Constructor.mkLaneConstructor (config []) "broken" (Some tt) None
      None None None in
  Constructor.Match broken tt "send" = Panic nil_dereference /\
  Constructor.Match (lane "outer" any_tx [Constructor.as_Lane broken])
    tt "send" = Panic nil_dereference /\
  Constructor.Match (lane "outer" is_bid [Constructor.as_Lane broken])
    tt "send" = Ret false.
Proof. repeat split; reflexivity. Qed.

(** [ValidateBasic] on the sample top-of-block lane, which has no handler
    but the match handler. *)
Lemma ValidateBasic_sets_defaults_witness :
  exists l',
    Constructor.ValidateBasic cfg_ValidateBasic DefaultPrepare
      DefaultProcess DefaultCheckOrder tob = (None, l') /\
    Constructor.prepareLaneHandler l' = Some "prepare:top-of-block" /\
    Constructor.processLaneHandler l' = Some "process:top-of-block" /\
    Constructor.checkOrderHandler l' = Some "check-order:top-of-block".
Proof.
  destruct (proj1 (ValidateBasic_sets_defaults unit string unit unit unit
                     unit unit unit string string string cfg_ValidateBasic
                     DefaultPrepare DefaultProcess DefaultCheckOrder)
              tob eq_refl)
    as (l' & E & Hp & Hq & Hc & _);
    try (simpl; discriminate).
  exists l'. split; [exact E|]. split; [exact Hp|]. split; [exact Hq|].
  exact Hc.
Defined.

(** The top-of-block lane ignores no lane: it matches what its handler
    matches. *)
Lemma CheckIgnoreList_by_Match_witness :
  Constructor.Match tob tt "bid" = Ret true.
Proof.
  exact (proj2 (proj2 (proj2 (proj2
           (CheckIgnoreList_by_Match unit string unit unit unit unit unit
              unit string string string tob tt "bid"))))
           is_bid eq_refl eq_refl).
Defined.

(** A well-formed bid sent without a timeout height. *)
Lemma timeout_zero_is_rejected_witness :
  exists w' e,
    run ["alice"; "10uatom"; "aGVsbG8="] (world [("timeout-height", "0")])
      = (w', Ret (Some e)) /\
    Cli.exits_with_zero
      (snd (run ["alice"; "10uatom"; "aGVsbG8="]
              (world [("timeout-height", "0")]))) = false /\
    Cli.broadcasts w' = [].
Proof.
  apply (timeout_zero_is_rejected FlagSet string string string string
           (fun e => e) flags_Set flags_GetUint64 GetClientTxContext
           (fun a => a) ParseCoinNormalized GenerateOrBroadcastTxCLI
           ["alice"; "10uatom"; "aGVsbG8="]
           (world [("timeout-height", "0")])).
  intros a0 rest E. inversion E. reflexivity.
Defined.

(** A bundle whose second token is no base64, with every other check
    passing: the error names index 1. *)
Lemma invalid_token_is_rejected_witness :
  exists k token e,
    nth_error (Strings.Split "aGVsbG8=,!" ","%char) k = Some token /\
    snd (Base64.DecodeString token) = Some e /\
    Forall Base64.valid (firstn k (Strings.Split "aGVsbG8=,!" ","%char)) /\
    run ["alice"; "10uatom"; "aGVsbG8=,!"] (world [("timeout-height", "10")])
      = (Cli.mkWorld [("from", "alice"); ("timeout-height", "10")] [],
         Ret (Some (Cli.decode_error (fun e => e) k (Cli.corruptInput e)))).
Proof.
  refine (proj1 (proj2
    (invalid_token_is_rejected FlagSet string string string string
       (fun e => e) flags_Set flags_GetUint64 GetClientTxContext
       (fun a => a) ParseCoinNormalized GenerateOrBroadcastTxCLI
       "alice" "10uatom" "aGVsbG8=,!" (world [("timeout-height", "10")]) _))
    [("from", "alice"); ("timeout-height", "10")] "alice" "10uatom"
    eq_refl eq_refl eq_refl _).
  - apply Exists_cons_tl, Exists_cons_hd. vm_compute. discriminate.
  - vm_compute. discriminate.
Defined.

(** C5 as stated fails: with a bundle that is no base64 and no timeout
    height, the invocation ends with the timeout error, which is the
    decoding error of no index. *)
Lemma invalid_token_other_error :
  Exists (fun token => ~ Base64.valid token)
    (Strings.Split "!" ","%char) /\
  run ["alice"; "10uatom"; "!"] (world [("timeout-height", "0")])
    = (Cli.mkWorld [("from", "alice"); ("timeout-height", "0")] [],
       Ret (Some (Cli.errorString "timeout height must be greater than 0")))
  /\
  forall i e,
    Cli.errorString "timeout height must be greater than 0"
    <> Cli.decode_error (fun e : string => e) i e.
Proof.
  split; [|split].
  - apply Exists_cons_hd. vm_compute. discriminate.
  - vm_compute. reflexivity.
  - intros i e. unfold Cli.decode_error. discriminate.
Qed.

(** Two transactions, every check passing. *)
Lemma auction_bid_command_witness :
  run ["alice"; "10uatom"; "aGVsbG8=,d29ybGQ="]
      (world [("timeout-height", "10")])
    = (Cli.mkWorld [("from", "alice"); ("timeout-height", "10")]
         [("alice", [("from", "alice"); ("timeout-height", "10")],
           Cli.NewMsgAuctionBid "alice" "10uatom"
             [ ["h"; "e"; "l"; "l"; "o"]%byte;
               ["w"; "o"; "r"; "l"; "d"]%byte ])],
       Ret None).
Proof.
  refine (proj1 (proj2 (proj2
    (auction_bid_command FlagSet string string string string
       (fun e => e) flags_Set flags_GetUint64 GetClientTxContext
       (fun a => a) ParseCoinNormalized GenerateOrBroadcastTxCLI)))
    "alice" "10uatom" "aGVsbG8=,d29ybGQ=" (world [("timeout-height", "10")])
    [("from", "alice"); ("timeout-height", "10")] "alice" "10uatom"
    eq_refl eq_refl eq_refl _ _).
  - vm_compute. discriminate.
  - repeat constructor.
Defined.

(** The empty third argument, every other check passing. *)
Lemma empty_bundle_argument_witness :
  run ["alice"; "10uatom"; ""] (world [("timeout-height", "10")])
    = (Cli.mkWorld [("from", "alice"); ("timeout-height", "10")]
         [("alice", [("from", "alice"); ("timeout-height", "10")],
           Cli.NewMsgAuctionBid "alice" "10uatom" [[]])],
       Ret None).
Proof.
  refine (proj1 (proj2 (proj2
    (empty_bundle_argument FlagSet string string string string
       (fun e => e) flags_Set flags_GetUint64 GetClientTxContext
       (fun a => a) ParseCoinNormalized GenerateOrBroadcastTxCLI)))
    "alice" "10uatom" (world [("timeout-height", "10")])
    [("from", "alice"); ("timeout-height", "10")] "alice" "10uatom"
    eq_refl eq_refl eq_refl _).
  vm_compute. discriminate.
Defined.

(** *** Further statements on the sample instances *)

Lemma new_tob_built : new_tob = Ret built_tob.
Proof. reflexivity. Qed.

Lemma ValidateBasic_idempotent_witness :
  Constructor.ValidateBasic cfg_ValidateBasic DefaultPrepare DefaultProcess
    DefaultCheckOrder built_tob = (None, built_tob).
Proof.
  exact (proj2 (ValidateBasic_idempotent unit string unit unit unit unit
                  unit unit string string string cfg_ValidateBasic
                  DefaultPrepare DefaultProcess DefaultCheckOrder)
           (config []) "top-of-block" (Some tt) (Some is_bid) built_tob
           new_tob_built).
Defined.

(** Nothing given but a valid config: the name is what is complained
    about. *)
Lemma NewLaneConstructor_first_error_witness :
  Constructor.NewLaneConstructor cfg_ValidateBasic DefaultPrepare
    DefaultProcess DefaultCheckOrder (config []) "" None None
  = Panic "lane name cannot be empty".
Proof.
  exact (proj1 (proj2
           (NewLaneConstructor_first_error unit string unit unit unit unit
              unit unit string string string cfg_ValidateBasic
              DefaultPrepare DefaultProcess DefaultCheckOrder
              (config []) "" None None))
           eq_refl eq_refl).
Defined.

Lemma constructed_lane_getters_witness :
  Constructor.Name built_tob = "top-of-block" /\
  Constructor.LaneMempool built_tob = Some tt /\
  Constructor.cfg built_tob = config [].
Proof.
  destruct (constructed_lane_getters unit string unit unit unit unit unit
              unit string string string cfg_ValidateBasic DefaultPrepare
              DefaultProcess DefaultCheckOrder (config []) "top-of-block"
              (Some tt) (Some is_bid) built_tob new_tob_built)
    as (Hn & _ & Hm & _ & Hc & _).
  exact (conj Hn (conj Hm Hc)).
Defined.

(** The default lane matches a plain transaction while it ignores two
    lanes, so it matches it while it ignores the first of them only. *)
Lemma SetIgnoreList_more_ignored_witness :
  Constructor.Match
    (Constructor.SetIgnoreList default [Constructor.as_Lane tob])
    tt "send" = Ret true.
Proof.
  exact (proj1 (SetIgnoreList_more_ignored unit string unit unit unit unit
                  unit unit string string string default
                  [Constructor.as_Lane tob] [Constructor.as_Lane free]
                  tt "send")
           eq_refl).
Defined.

(** The three sample lanes, each ignoring those before it, never match
    the same transaction. *)
Lemma Match_exclusive_witness :
  ForallOrdPairs
    (fun a b =>
       ~ (Constructor.Match a tt "bid" = Ret true /\
          Constructor.Match b tt "bid" = Ret true))
    [tob; free; default].
Proof.
  refine (proj2 (Match_exclusive unit string unit unit unit unit unit unit
                   string string string [tob; free; default] tt "bid" _)).
  repeat first [ apply FOP_nil | apply FOP_cons
               | apply Forall_nil | apply Forall_cons ];
    simpl; auto.
Defined.

Lemma Match_formula_witness :
  Constructor.Match default tt "free" =
    Ret (any_tx tt "free" &&
         negb (existsb (fun lane => Constructor.matches lane tt "free")
                 (Constructor.IgnoreList (Constructor.cfg default)))).
Proof.
  refine (Match_formula unit string unit unit unit unit unit unit string
            string string default any_tx tt "free" eq_refl _).
  repeat constructor; eexists; reflexivity.
Defined.

(** The default lane with its two ignored lanes in the other order. *)
Lemma SetIgnoreList_permutation_witness :
  Constructor.Match
    (Constructor.SetIgnoreList default
       [Constructor.as_Lane free; Constructor.as_Lane tob])
    tt "bid" = Constructor.Match default tt "bid".
Proof.
  refine (SetIgnoreList_permutation unit string unit unit unit unit unit
            unit string string string default
            [Constructor.as_Lane free; Constructor.as_Lane tob] tt "bid"
            _ _).
  - apply perm_swap.
  - repeat constructor; eexists; reflexivity.
Defined.

(** With a lane that panics on the ignore list the order does matter: the
    panic is reached only when no lane before it matches. *)
Example ignore_list_order_with_panic :
  Constructor.Match
    (lane "outer" any_tx
       [Constructor.as_Lane broken; Constructor.as_Lane tob]) tt "bid"
    = Panic nil_dereference /\
  Constructor.Match
    (lane "outer" any_tx
       [Constructor.as_Lane tob; Constructor.as_Lane broken]) tt "bid"
    = Ret false.
Proof. split; reflexivity. Qed.

Lemma execute_never_panics_witness :
  sample_RunE ["alice"] (world [("timeout-height", "10")])
  = (Cli.mkWorld [("from", "alice"); ("timeout-height", "10")] [],
     Cli.Panicked "runtime error: index out of range [1] with length 1") /\
  sample_RunE ["alice"; "10uatom"] (world [("timeout-height", "10")])
  = (Cli.mkWorld [("from", "alice"); ("timeout-height", "10")] [],
     Cli.Panicked "runtime error: index out of range [2] with length 2") /\
  sample_RunE ["alice"; "10uatom"] (world [("timeout-height", "0")])
  = (Cli.mkWorld [("from", "alice"); ("timeout-height", "0")] [],
     Cli.Return
       (Some (Cli.errorString "timeout height must be greater than 0"))).
Proof.
  pose proof (execute_never_panics FlagSet string string string string
                (fun e => e) flags_Set flags_GetUint64 GetClientTxContext
                (fun a => a) ParseCoinNormalized GenerateOrBroadcastTxCLI)
    as (_ & _ & H1 & H2).
  split; [|split].
  - exact (H1 "alice" (world [("timeout-height", "10")])).
  - exact (H2 "alice" "10uatom" (world [("timeout-height", "10")])).
  - exact (H2 "alice" "10uatom" (world [("timeout-height", "0")])).
Defined.

(** No timeout height and a bundle that is no base64: the timeout is what
    is complained about. *)
Lemma check_order_witness :
  run ["alice"; "10uatom"; "!"] (world [])
  = (Cli.mkWorld [("from", "alice")] [],
     Ret (Some (Cli.errorString "timeout height must be greater than 0"))).
Proof.
  exact (proj2 (proj2 (proj2
           (check_order FlagSet string string string string
              (fun e => e) flags_Set flags_GetUint64 GetClientTxContext
              (fun a => a) ParseCoinNormalized GenerateOrBroadcastTxCLI
              "alice" "10uatom" "!" (world []))))
           [("from", "alice")] "alice" "10uatom"
           eq_refl eq_refl eq_refl eq_refl).
Defined.

Lemma from_flag_is_set_witness :
  fst (run ["alice"; "10uatom"] (world [("timeout-height", "10")]))
  = world [("timeout-height", "10")].
Proof.
  refine (proj2
            (from_flag_is_set FlagSet string string string string
               (fun e => e) flags_Set flags_GetUint64 GetClientTxContext
               (fun a => a) ParseCoinNormalized GenerateOrBroadcastTxCLI)
            ["alice"; "10uatom"] (world [("timeout-height", "10")]) _).
  simpl. discriminate.
Defined.

Lemma bundle_size_witness :
  Z.of_nat (List.length
    (Cli.Transactions
       (Cli.NewMsgAuctionBid "alice" "10uatom"
          [ ["h"; "e"; "l"; "l"; "o"]%byte; []; ["w"; "o"; "r"; "l"; "d"]%byte ])))
  = (Strings.CountByte "aGVsbG8=,,d29ybGQ=" ","%char + 1)%Z.
Proof.
  refine (proj1 (proj2 (proj2
    (bundle_size FlagSet string string string string
       (fun e => e) flags_Set flags_GetUint64 GetClientTxContext
       (fun a => a) ParseCoinNormalized GenerateOrBroadcastTxCLI
       "alice" "10uatom" "aGVsbG8=,,d29ybGQ="
       (world [("timeout-height", "10")])
       (fst (run ["alice"; "10uatom"; "aGVsbG8=,,d29ybGQ="]
               (world [("timeout-height", "10")])))
       (snd (run ["alice"; "10uatom"; "aGVsbG8=,,d29ybGQ="]
               (world [("timeout-height", "10")])))
       "alice" [("from", "alice"); ("timeout-height", "10")]
       (Cli.NewMsgAuctionBid "alice" "10uatom"
          [ ["h"; "e"; "l"; "l"; "o"]%byte; [];
            ["w"; "o"; "r"; "l"; "d"]%byte ])
       _ _)))).
  - vm_compute. reflexivity.
  - vm_compute. reflexivity.
Defined.

Lemma illegal_byte_is_rejected_witness :
  exists w' e,
    run ["alice"; "10uatom"; "aGVs,bG8!"] (world [("timeout-height", "10")])
      = (w', Ret (Some e)) /\
    Cli.broadcasts w' = [].
Proof.
  refine (illegal_byte_is_rejected FlagSet string string string string
            (fun e => e) flags_Set flags_GetUint64 GetClientTxContext
            (fun a => a) ParseCoinNormalized GenerateOrBroadcastTxCLI
            "alice" "10uatom" "aGVs,bG8!"
            (world [("timeout-height", "10")]) "!"%char _ _ _).
  - reflexivity.
  - discriminate.
  - reflexivity.
Defined.

Lemma alphabet_tokens_are_accepted_witness :
  exists msg,
    run ["alice"; "10uatom"; "aGVs,bG8h"] (world [("timeout-height", "10")])
      = (Cli.mkWorld [("from", "alice"); ("timeout-height", "10")]
           [("alice", [("from", "alice"); ("timeout-height", "10")], msg)],
         Ret None) /\
    Forall2 (fun token rawTx =>
               (4 * List.length rawTx = 3 * String.length token)%nat)
      (Strings.Split "aGVs,bG8h" ","%char) (Cli.Transactions msg).
Proof.
  refine (alphabet_tokens_are_accepted FlagSet string string string string
            (fun e => e) flags_Set flags_GetUint64 GetClientTxContext
            (fun a => a) ParseCoinNormalized GenerateOrBroadcastTxCLI
            "alice" "10uatom" "aGVs,bG8h"
            (world [("timeout-height", "10")])
            [("from", "alice"); ("timeout-height", "10")] "alice" "10uatom"
            eq_refl eq_refl eq_refl _ _).
  - vm_compute. discriminate.
  - repeat constructor; exists 1%nat; reflexivity.
Defined.

Lemma Split_round_trip_witness :
  Strings.Split "10uatom" ","%char = ["10uatom"].
Proof.
  exact (proj2 (proj2 (proj2 (Split_round_trip ","%char "10uatom")))
           eq_refl).
Defined.

Lemma DecodeString_error_offset_witness :
  (0 <= 4 <= Strings.len "aGVsbG8")%Z.
Proof.
  exact (DecodeString_error_offset "aGVsbG8" 4 eq_refl).
Defined.

(** A lane that ignores a lane whose handler is nil: the panic of the
    ignored lane is not reached when the handler returns [false]. *)
Lemma Match_panic_cases_witness :
  Constructor.Match (lane "outer" is_bid [Constructor.as_Lane broken])
    tt "send" = Ret false.
Proof.
  exact (proj1 (proj2
           (Match_panic_cases unit string unit unit unit unit unit unit
              string string string
              (lane "outer" is_bid [Constructor.as_Lane broken]) tt "send"))
           is_bid eq_refl eq_refl).
Defined.

(** C9 as stated fails: with the empty string as third argument and no
    timeout height, the invocation ends with the timeout error and hands
    nothing over. *)
Lemma empty_bundle_argument_timeout_zero :
  run ["alice"; "10uatom"; ""] (world [("timeout-height", "0")])
    = (Cli.mkWorld [("from", "alice"); ("timeout-height", "0")] [],
       Ret (Some (Cli.errorString "timeout height must be greater than 0")))
  /\
  Cli.exits_with_zero
    (snd (run ["alice"; "10uatom"; ""] (world [("timeout-height", "0")])))
    = false /\
  Cli.broadcasts
    (fst (run ["alice"; "10uatom"; ""] (world [("timeout-height", "0")])))
    = [].
Proof. repeat split; vm_compute; reflexivity. Qed.

End OnSamples.
